(** * Sensitivity analysis of [mfa_ua]: a shallow embedding

    This development embeds [mfa_ua/sensitivity_analysis/get_sensitivities.py]
    and states its behaviour as theorems.

    - Python numbers are kept abstract behind the interface [PyNum]: the
      engine only adds, subtracts, multiplies, divides, compares and rounds.
      No law is assumed about these operations, so every theorem of the
      generic sections holds for IEEE doubles as well as for exact numbers.
      Two instances are given: exact rationals ([Q], executable) and real
      numbers ([R], for the power function of the demo).
    - Exceptions are values of [exn]; a computation yields [Return a] or
      [Raise e] together with the final interpreter state.
    - The interpreter state holds the heap of dictionary objects (the caller's
      [parameter_values] is a reference into it), the text printed so far and
      the log of the calls made to the target function. *)

From Stdlib Require Import ZArith QArith Qround Qabs Reals Lqa Lra Lia String List.
From stdpp Require Import base option gmap strings list pretty.

Local Open Scope string_scope.
Local Open Scope list_scope.

(** ** Python numbers *)

Class PyNum (num : Type) := {
  (** a numeric literal of the source text, such as [1], [0.05] *)
  num_lit : Q → num;
  num_add : num → num → num;
  num_sub : num → num → num;
  num_mul : num → num → num;
  (** [a / b] for a divisor that is not zero *)
  num_div : num → num → num;
  (** [a == b] *)
  num_eqb : num → num → bool;
  (** [np.round(a, decimals)] *)
  np_round : num → Z → num;
  (** [str(a)], as an f-string inserts it *)
  num_str : num → string
}.

Declare Scope py_scope.
Delimit Scope py_scope with py.
Infix "+" := num_add : py_scope.
Infix "-" := num_sub : py_scope.
Infix "*" := num_mul : py_scope.

(** ** Exceptions and results *)

Inductive exn : Type :=
| ValueError (msg : string)
| NameError (msg : string)
| KeyError (key : string)
| TypeError (msg : string)
| IndexError (msg : string)
| ZeroDivisionError (msg : string)
| SystemError (msg : string)
| OtherError (cls msg : string).

(** [str(e)] *)
Definition exn_str (e : exn) : string :=
  match e with
  | ValueError m | NameError m | TypeError m | IndexError m
  | ZeroDivisionError m | SystemError m | OtherError _ m => m
  | KeyError k => "'" +:+ k +:+ "'"
  end.

Inductive result (A : Type) : Type :=
| Return (a : A)
| Raise (e : exn).
Arguments Return {A} a.
Arguments Raise {A} e.

(** ** Name resolution in an [except] clause

    The expression after [except] is evaluated only when an exception
    reaches the clause.  A name is looked up in the module's globals, then in
    the builtins. *)

Inductive binding : Type :=
| ExceptionClass (isinstance : exn → bool)
| OtherObject.

(** The names bound at module level: the three imports and the four
    functions. *)
Definition module_globals : list (string * binding) :=
  [ ("sy", OtherObject); ("np", OtherObject); ("Callable", OtherObject);
    ("partially_derivate", OtherObject);
    ("get_sensitivity_for_parameter", OtherObject);
    ("get_sensitivities", OtherObject);
    ("get_sensitivities_numerical", OtherObject) ].

Definition is_ValueError (e : exn) : bool :=
  match e with ValueError _ => true | _ => false end.
Definition is_NameError (e : exn) : bool :=
  match e with NameError _ => true | _ => false end.
Definition is_KeyError (e : exn) : bool :=
  match e with KeyError _ => true | _ => false end.
Definition is_TypeError (e : exn) : bool :=
  match e with TypeError _ => true | _ => false end.
Definition is_IndexError (e : exn) : bool :=
  match e with IndexError _ => true | _ => false end.
Definition is_ZeroDivisionError (e : exn) : bool :=
  match e with ZeroDivisionError _ => true | _ => false end.
Definition is_SystemError (e : exn) : bool :=
  match e with SystemError _ => true | _ => false end.

(** The builtin exception classes (there is no builtin called [Error]). *)
Definition builtins : list (string * binding) :=
  [ ("BaseException", ExceptionClass (λ _, true));
    ("Exception", ExceptionClass (λ _, true));
    ("ArithmeticError", ExceptionClass is_ZeroDivisionError);
    ("LookupError", ExceptionClass (λ e, is_KeyError e || is_IndexError e));
    ("ValueError", ExceptionClass is_ValueError);
    ("NameError", ExceptionClass is_NameError);
    ("KeyError", ExceptionClass is_KeyError);
    ("TypeError", ExceptionClass is_TypeError);
    ("IndexError", ExceptionClass is_IndexError);
    ("ZeroDivisionError", ExceptionClass is_ZeroDivisionError);
    ("SystemError", ExceptionClass is_SystemError) ].

Fixpoint assoc {V : Type} (k : string) (l : list (string * V)) : option V :=
  match l with
  | [] => None
  | (k', v) :: l' => if String.eqb k' k then Some v else assoc k l'
  end.

Definition lookup_name (name : string) : option binding :=
  match assoc name module_globals with
  | Some b => Some b
  | None => assoc name builtins
  end.

(** ** Insertion-ordered dictionaries *)

Definition dict (V : Type) : Type := list (string * V).

(** [d[k] = v]: an existing key keeps its position, a new key goes last. *)
Fixpoint dict_set {V : Type} (d : dict V) (k : string) (v : V) : dict V :=
  match d with
  | [] => [(k, v)]
  | (k', v') :: d' =>
      if String.eqb k' k then (k', v) :: d' else (k', v') :: dict_set d' k v
  end.

Definition dict_keys {V : Type} (d : dict V) : list string := map fst d.
Definition dict_values {V : Type} (d : dict V) : list V := map snd d.

(** ** Interpreter state and the computation monad *)

Definition loc : Type := positive.

Record state (num : Type) : Type := mkState {
  heap : gmap loc (dict num);
  stdout : list string;
  calls : list (list num)
}.
Arguments mkState {num} heap stdout calls.
Arguments heap {num} s.
Arguments stdout {num} s.
Arguments calls {num} s.

Definition M (num A : Type) : Type := state num → result A * state num.

Definition ret {num A : Type} (a : A) : M num A := λ s, (Return a, s).
Definition raise {num A : Type} (e : exn) : M num A := λ s, (Raise e, s).
Definition bind {num A B : Type} (m : M num A) (k : A → M num B) : M num B :=
  λ s, match m s with
       | (Return a, s') => k a s'
       | (Raise e, s') => (Raise e, s')
       end.

(** [x ← m; k] and [m;; k] are stdpp's notations for [bind]. *)
#[export] Instance M_ret {num : Type} : MRet (M num) := λ A a, ret a.
#[export] Instance M_bind {num : Type} : MBind (M num) := λ A B k m, bind m k.

(** [try: m except ...: handler]: the handler answers [None] when no clause
    matches the exception, which then propagates. *)
Definition try_except {num A : Type} (m : M num A)
    (handler : exn → option (M num A)) : M num A :=
  λ s, match m s with
       | (Return a, s') => (Return a, s')
       | (Raise e, s') =>
           match handler e with
           | Some h => h s'
           | None => (Raise e, s')
           end
       end.

Definition print {num : Type} (line : string) : M num unit :=
  λ s, (Return tt, mkState (heap s) (stdout s ++ [line]) (calls s)).

(** ** Dictionary objects on the heap *)

Definition dangling {num A : Type} : M num A :=
  raise (SystemError "reference to an object that does not exist").

(** [d.copy()]: a new object holding the same items. *)
Definition dict_copy {num : Type} (d : loc) : M num loc :=
  λ s, match heap s !! d with
       | Some items =>
           let d' := fresh (dom (heap s)) in
           (Return d', mkState (<[d' := items]> (heap s)) (stdout s) (calls s))
       | None => dangling s
       end.

(** [d[k] = v]: the object [d] is updated in place. *)
Definition dict_setitem {num : Type} (d : loc) (k : string) (v : num)
    : M num unit :=
  λ s, match heap s !! d with
       | Some items =>
           (Return tt,
            mkState (<[d := dict_set items k v]> (heap s)) (stdout s) (calls s))
       | None => dangling s
       end.

(** [d.items()] and [d.values()], read at once. *)
Definition dict_items_of {num : Type} (d : loc) : M num (dict num) :=
  λ s, match heap s !! d with
       | Some items => (Return items, s)
       | None => dangling s
       end.

Definition dict_values_of {num : Type} (d : loc) : M num (list num) :=
  items ← dict_items_of d; mret (dict_values items).

(** ** Subscripting *)

(** [m[k]] on a read-only mapping argument. *)
Definition getitem {num V : Type} (m : gmap string V) (k : string) : M num V :=
  match m !! k with
  | Some v => mret v
  | None => raise (KeyError k)
  end.

(** [m[k]] where [m] may be [None]. *)
Definition getitem_or_None {num V : Type} (m : option (gmap string V))
    (k : string) : M num V :=
  match m with
  | Some m => getitem m k
  | None => raise (TypeError "'NoneType' object is not subscriptable")
  end.

(** [l[i]] on a list. *)
Definition list_getitem {num V : Type} (l : list V) (i : nat) : M num V :=
  match l !! i with
  | Some v => mret v
  | None => raise (IndexError "list index out of range")
  end.

(** ** The numerical engine: [get_sensitivities_numerical] *)

(** The [interval_width] argument: a [dict] or a plain number
    ([isinstance(interval_width, dict)]). *)
Inductive width_policy (num : Type) : Type :=
| WidthDict (widths : gmap string num)
| WidthFloat (width : num).
Arguments WidthDict {num} widths.
Arguments WidthFloat {num} width.

(** One entry of the result:
    [{"absolute_sensitivity": ..., "relative_sensitivity": ...}]. *)
Record sensitivity (V : Type) : Type := mkSensitivity {
  absolute_sensitivity : V;
  relative_sensitivity : V
}.
Arguments mkSensitivity {V} absolute_sensitivity relative_sensitivity.
Arguments absolute_sensitivity {V} s.
Arguments relative_sensitivity {V} s.

(** The name of an entry with its absolute sensitivity. *)
Definition absolute_of {V : Type} (entry : string * sensitivity V) : string * V :=
  (entry.1, absolute_sensitivity entry.2).

Definition missing_interval_message (parameter : string) : string :=
  "Missing differentiation interval for parameter " +:+ parameter +:+ ". "
  +:+ "Either specify a single value, or one for every parameter/ a 'default' "
  +:+ "interval or one for each parameter.".

Definition evaluation_failed_message {num : Type} `{PyNum num}
    (value : num) (parameter : string) (e : exn) : string :=
  "Function evaluation with value " +:+ num_str value +:+ " for parameter "
  +:+ parameter +:+ " failed: " +:+ exn_str e.

Definition not_linear_message {num : Type} `{PyNum num}
    (parameter : string) (second_derivative : num) : string :=
  "the change for parameter " +:+ parameter
  +:+ " is not linear, (Nop-low)/(high-norm) = " +:+ num_str second_derivative.

Section Numerical.
Context {num : Type} `{PyNum num}.

Local Open Scope py_scope.

(** [a / b] on Python numbers. *)
Definition truediv (a b : num) : M num num :=
  if num_eqb b (num_lit 0) then raise (ZeroDivisionError "division by zero")
  else mret (num_div a b).

(** The target function: it is given the positional arguments and
    returns a number or raises. *)
Variable function : list num → result num.

(** [function( *args )]; the call is logged. *)
Definition call (args : list num) : M num num :=
  λ s, (function args, mkState (heap s) (stdout s) (calls s ++ [args])).

(** Lines 116-119. *)
Definition explicit_interval
    (differentiation_interval_values : option (gmap string (list num)))
    (parameter : string) : M num (option (list num)) :=
  try_except
    (interval ← getitem_or_None differentiation_interval_values parameter;
     mret (Some interval))
    (λ e, if is_KeyError e || is_TypeError e then Some (mret None) else None).

(** [not differentiation_interval] *)
Definition falsy (differentiation_interval : option (list num)) : bool :=
  match differentiation_interval with
  | Some (_ :: _) => false
  | _ => true
  end.

(** Lines 122-135. *)
Definition relative_width (interval_width : width_policy num)
    (parameter : string) : M num num :=
  match interval_width with
  | WidthDict widths =>
      try_except (getitem widths parameter)
        (λ e, if is_KeyError e then
                Some (try_except (getitem widths "default")
                        (λ e', if is_KeyError e' then
                                 Some (raise (ValueError
                                         (missing_interval_message parameter)))
                               else None))
              else None)
  | WidthFloat width => mret width
  end.

(** Lines 116-139: the interval used for [parameter]. *)
Definition differentiation_interval
    (interval_width : width_policy num)
    (differentiation_interval_values : option (gmap string (list num)))
    (parameter : string) (normal_value : num) : M num (list num) :=
  given ← explicit_interval differentiation_interval_values parameter;
  if falsy given then
    rel_width ← relative_width interval_width parameter;
    mret [ normal_value * (num_lit 1 - rel_width);
           normal_value * (num_lit 1 + rel_width) ]
  else mret (default [] given).

(** Line 146: [except Error as e]. *)
Definition except_Error (value : num) (parameter : string) (e : exn)
    : option (M num num) :=
  match lookup_name "Error" with
  | None => Some (raise (NameError "name 'Error' is not defined"))
  | Some OtherObject =>
      Some (raise (TypeError
        "catching classes that do not inherit from BaseException is not allowed"))
  | Some (ExceptionClass isinstance) =>
      if isinstance e then
        Some (raise (ValueError (evaluation_failed_message value parameter e)))
      else None
  end.

(** Lines 140-150: the loop over the values of the interval. *)
Fixpoint evaluate_interval (parameter_values : loc) (parameter : string)
    (values results : list num) : M num (list num) :=
  match values with
  | [] => mret results
  | value :: values' =>
      function_inputs ← dict_copy parameter_values;
      dict_setitem function_inputs parameter value;;
      args ← dict_values_of function_inputs;
      result ← try_except (call args) (except_Error value parameter);
      evaluate_interval parameter_values parameter values' (results ++ [result])
  end.

(** Lines 159-165. *)
Definition linearity_ratio (normal_operating_point : num) (results : list num)
    : M num num :=
  try_except
    (results_0 ← list_getitem results 0;
     results_1 ← list_getitem results 1;
     truediv (normal_operating_point - results_0)
             (results_1 - normal_operating_point))
    (λ e, if is_ZeroDivisionError e then Some (mret (num_lit 1)) else None).

(** Lines 159-172: the linearity diagnostic. *)
Definition linearity_diagnostic (normal_operating_point : num)
    (results : list num) (parameter : string) : M num unit :=
  second_derivative ← linearity_ratio normal_operating_point results;
  if num_eqb (np_round second_derivative 5) (num_lit 1) then mret tt
  else print (not_linear_message parameter second_derivative).

(** Lines 116-176: the body of the loop over the parameters. *)
Definition loop_body (parameter_values : loc) (normal_operating_point : num)
    (interval_width : width_policy num)
    (differentiation_interval_values : option (gmap string (list num)))
    (sensitivities : dict (sensitivity num))
    (parameter : string) (normal_value : num)
    : M num (dict (sensitivity num)) :=
  interval ← differentiation_interval interval_width
               differentiation_interval_values parameter normal_value;
  results ← evaluate_interval parameter_values parameter interval [];
  results_1 ← list_getitem results 1;
  results_0 ← list_getitem results 0;
  let res_diff := results_1 - results_0 in
  interval_1 ← list_getitem interval 1;
  interval_0 ← list_getitem interval 0;
  absolute ← truediv res_diff (interval_1 - interval_0);
  relative ← truediv (absolute * normal_value) normal_operating_point;
  linearity_diagnostic normal_operating_point results parameter;;
  mret (dict_set sensitivities parameter
          (mkSensitivity (np_round absolute 0) (np_round relative 2))).

(** Lines 115-176: [for parameter, normal_value in parameter_values.items()]. *)
Fixpoint for_parameters (parameter_values : loc) (normal_operating_point : num)
    (interval_width : width_policy num)
    (differentiation_interval_values : option (gmap string (list num)))
    (items : dict num) (sensitivities : dict (sensitivity num))
    : M num (dict (sensitivity num)) :=
  match items with
  | [] => mret sensitivities
  | (parameter, normal_value) :: items' =>
      sensitivities' ← loop_body parameter_values normal_operating_point
                         interval_width differentiation_interval_values
                         sensitivities parameter normal_value;
      for_parameters parameter_values normal_operating_point interval_width
        differentiation_interval_values items' sensitivities'
  end.

Definition get_sensitivities_numerical (parameter_values : loc)
    (interval_width : width_policy num)
    (differentiation_interval_values : option (gmap string (list num)))
    : M num (dict (sensitivity num)) :=
  args ← dict_values_of parameter_values;
  normal_operating_point ← call args;
  items ← dict_items_of parameter_values;
  for_parameters parameter_values normal_operating_point interval_width
    differentiation_interval_values items [].

End Numerical.

(** The defaults of the signature: [interval_width=0.05],
    [differentiation_interval_values=None]. *)
Definition default_interval_width {num : Type} `{PyNum num} : width_policy num :=
  WidthFloat (num_lit (5 # 100)).

(** ** Exact rational numbers as Python numbers *)

Module QNum.

(** Rounding to the nearest integer, ties to the even one (numpy's rule). *)
Definition round_half_even (x : Q) : Z :=
  let f := Qfloor x in
  match Qcompare (x - inject_Z f) (1 # 2) with
  | Lt => f
  | Gt => (f + 1)%Z
  | Eq => if Z.even f then f else (f + 1)%Z
  end.

Definition scale (decimals : Z) : Q := inject_Z (10 ^ decimals).

(** [np.round(x, decimals)]: scale, round to the nearest integer, scale
    back. *)
Definition round (x : Q) (decimals : Z) : Q :=
  inject_Z (round_half_even (x * scale decimals)) / scale decimals.

(** The text of a rational, numerator over denominator. *)
Definition str (x : Q) : string :=
  pretty (Qnum x) +:+ "/" +:+ pretty (Z.pos (Qden x)).

#[export] Instance Q_PyNum : PyNum Q := {
  num_lit := λ q, q;
  num_add := Qplus;
  num_sub := Qminus;
  num_mul := Qmult;
  num_div := Qdiv;
  num_eqb := Qeq_bool;
  np_round := round;
  num_str := str
}.

(** A state whose heap holds the caller's dictionary at reference [1]. *)
Definition state_with (parameter_values : dict Q) : state Q :=
  mkState {[ 1%positive := parameter_values ]} [] [].

(** [f2] of [demo/demo_contour_plot.py]: [(x + y + x / z) * w**2]. *)
Definition f2 (args : list Q) : result Q :=
  match args with
  | [x; y; z; w] =>
      if Qeq_bool z 0 then Raise (ZeroDivisionError "division by zero")
      else Return ((x + y + x / z) * (w * w))%Q
  | _ => Raise (TypeError "f2() takes 4 positional arguments")
  end.

(** [parameter_values = {"x": 1, "y": 2, "z": 3, "w": 4}] *)
Definition demo_parameter_values : dict Q :=
  [("x", 1%Q); ("y", 2%Q); ("z", 3%Q); ("w", 4%Q)].

(** The state in which the demo calls the engine: its dictionary is the
    only object. *)
Definition demo_state : state Q := state_with demo_parameter_values.

(** [wrapped_f2] of [demo/demo_contour_plot.py]:
    [f2(x, parameter_values["y"], z, parameter_values["w"])]. *)
Definition wrapped_f2 (x z : Q) : result Q :=
  match assoc "y" demo_parameter_values with
  | Some y =>
      match assoc "w" demo_parameter_values with
      | Some w => f2 [x; y; z; w]
      | None => Raise (KeyError "w")
      end
  | None => Raise (KeyError "y")
  end.

(** A function that is linear in each of its two parameters: [3 x + 2 y]. *)
Definition weighted_sum (args : list Q) : result Q :=
  match args with
  | [x; y] => Return (3 * x + 2 * y)%Q
  | _ => Raise (TypeError "weighted_sum() takes 2 positional arguments")
  end.

(** [{"x": 1, "y": 2}] *)
Definition two_parameter_values : dict Q := [("x", 1%Q); ("y", 2%Q)].

(** The demo values with [z = 0], where [f2] divides by zero. *)
Definition zero_z_parameter_values : dict Q :=
  [("x", 1%Q); ("y", 2%Q); ("z", 0%Q); ("w", 4%Q)].

(** The demo values with [w = 0], where [f2] is zero. *)
Definition zero_w_parameter_values : dict Q :=
  [("x", 1%Q); ("y", 2%Q); ("z", 3%Q); ("w", 0%Q)].

(** An explicit interval for each parameter of the demo. *)
Definition explicit_demo_intervals : gmap string (list Q) :=
  {[ "x" := [9 # 10; 11 # 10]; "y" := [1%Q; 3%Q]; "z" := [2%Q; 4%Q];
     "w" := [3%Q; 5%Q] ]}.

End QNum.

(** ** Real numbers as Python numbers

    The demo function raises a number to a power that is not an integer;
    real numbers give it a meaning.  Comparison and rounding are decided by
    the order of the reals. *)

Module RNum.

Local Open Scope R_scope.

Definition eqb (a b : R) : bool := if Req_dec_T a b then true else false.

(** The largest integer not above [x]. *)
Definition floor (x : R) : Z := (up x - 1)%Z.

Definition round_half_even (x : R) : Z :=
  let f := floor x in
  if Rlt_dec (x - IZR f) (1 / 2) then f
  else if Rlt_dec (1 / 2) (x - IZR f) then (f + 1)%Z
  else if Z.even f then f else (f + 1)%Z.

Definition scale (decimals : Z) : R := IZR (10 ^ decimals).

Definition round (x : R) (decimals : Z) : R :=
  IZR (round_half_even (x * scale decimals)) / scale decimals.

(** The text of a real number is not needed by any statement below. *)
Definition str (x : R) : string := "<real>".

#[export] Instance R_PyNum : PyNum R := {
  num_lit := Q2R;
  num_add := Rplus;
  num_sub := Rminus;
  num_mul := Rmult;
  num_div := Rdiv;
  num_eqb := eqb;
  np_round := round;
  num_str := str
}.

(** [test_function] of [demo/sensitivity_analysis_demo_numerical.py]:
    [(x * y + x**z) * w], with [x**z] the real power of a positive base. *)
Definition test_function (args : list R) : result R :=
  match args with
  | [x; y; z; w] => Return ((x * y + Rpower x z) * w)
  | _ => Raise (TypeError "test_function() takes 4 positional arguments")
  end.

(** [parameter_values = {"x": 1, "y": 2, "z": 3, "w": 4}] *)
Definition demo_parameter_values : dict R :=
  [("x", 1); ("y", 2); ("z", 3); ("w", 4)].

Definition state_with (parameter_values : dict R) : state R :=
  mkState {[ 1%positive := parameter_values ]} [] [].

End RNum.

(** ** The part of sympy the symbolic engine uses

    Expressions over exact rationals, built by constructors that evaluate
    on the spot as sympy's do: numbers are combined, [0] and [1] are absorbed,
    a division by zero gives [zoo] and an undefined product gives [nan]. *)

Module Sympy.

Inductive expr : Type :=
| Num (q : Q)
| NaN
| ComplexInfinity
| Sym (name : string)
| Add (a b : expr)
| Mul (a b : expr)
| Pow (base exponent : expr)
| Log (a : expr).

Definition Zero : expr := Num 0.
Definition One : expr := Num 1.
Definition NegativeOne : expr := Num (-1).

Definition is_zero (q : Q) : bool := Qeq_bool q 0.
Definition is_one (q : Q) : bool := Qeq_bool q 1.
Definition is_integer (q : Q) : bool := Pos.eqb (Qden (Qred q)) 1.

(** [a + b] *)
Definition add (a b : expr) : expr :=
  match a, b with
  | NaN, _ | _, NaN => NaN
  | ComplexInfinity, ComplexInfinity => NaN
  | ComplexInfinity, _ | _, ComplexInfinity => ComplexInfinity
  | Num p, Num q => Num (Qred (p + q))
  | Num p, _ => if is_zero p then b else Add a b
  | _, Num q => if is_zero q then a else Add a b
  | _, _ => Add a b
  end.

(** [a * b] *)
Definition mul (a b : expr) : expr :=
  match a, b with
  | NaN, _ | _, NaN => NaN
  | ComplexInfinity, ComplexInfinity => ComplexInfinity
  | ComplexInfinity, Num q => if is_zero q then NaN else ComplexInfinity
  | Num p, ComplexInfinity => if is_zero p then NaN else ComplexInfinity
  | ComplexInfinity, _ | _, ComplexInfinity => ComplexInfinity
  | Num p, Num q => Num (Qred (p * q))
  | Num p, _ => if is_zero p then Zero else if is_one p then b else Mul a b
  | _, Num q => if is_zero q then Zero else if is_one q then a else Mul a b
  | _, _ => Mul a b
  end.

(** [base ** exponent] *)
Definition pow (base exponent : expr) : expr :=
  match base, exponent with
  | NaN, _ | _, NaN => NaN
  | _, ComplexInfinity => NaN
  | ComplexInfinity, Num q =>
      if is_zero q then NaN
      else if Qle_bool 0 q then ComplexInfinity else Zero
  | Num p, Num q =>
      if is_zero q then One
      else if is_integer q then
        if is_zero p && negb (Qle_bool 0 q) then ComplexInfinity
        else Num (Qred (Qpower p (Qnum (Qred q))))
      else if is_one p then One
      else Pow base exponent
  | Num p, _ => if is_one p then One else Pow base exponent
  | _, Num q =>
      if is_zero q then One else if is_one q then base else Pow base exponent
  | _, _ => Pow base exponent
  end.

(** [log(a)] *)
Definition log (a : expr) : expr :=
  match a with
  | NaN => NaN
  | ComplexInfinity => ComplexInfinity
  | Num q => if is_one q then Zero else if is_zero q then ComplexInfinity else Log a
  | _ => Log a
  end.

(** [a / b], which sympy builds as [a * b**-1]. *)
Definition div (a b : expr) : expr := mul a (pow b NegativeOne).

(** [s in e.free_symbols] *)
Fixpoint occurs (s : string) (e : expr) : bool :=
  match e with
  | Num _ | NaN | ComplexInfinity => false
  | Sym name => String.eqb name s
  | Add a b | Mul a b | Pow a b => occurs s a || occurs s b
  | Log a => occurs s a
  end.

(** [sy.diff(e, s)]: zero at once when [s] is not a free symbol of [e],
    otherwise the derivative rule of the expression (sum, product,
    power [b**e * (e' * log(b) + b' * e / b)], logarithm). *)
Fixpoint diff (e : expr) (s : string) : expr :=
  if negb (occurs s e) then Zero
  else
    match e with
    | Num _ | NaN | ComplexInfinity => Zero
    | Sym name => if String.eqb name s then One else Zero
    | Add a b => add (diff a s) (diff b s)
    | Mul a b => add (mul (diff a s) b) (mul a (diff b s))
    | Pow base exponent =>
        mul (Pow base exponent)
            (add (mul (diff exponent s) (log base))
                 (div (mul (diff base s) exponent) base))
    | Log a => div (diff a s) a
    end.

(** [e.subs(values)]: the symbols that have a value are replaced and the
    expression is evaluated again. *)
Fixpoint subs (e : expr) (values : gmap string Q) : expr :=
  match e with
  | Num _ | NaN | ComplexInfinity => e
  | Sym name =>
      match values !! name with
      | Some q => Num (Qred q)
      | None => e
      end
  | Add a b => add (subs a values) (subs b values)
  | Mul a b => mul (subs a values) (subs b values)
  | Pow a b => pow (subs a values) (subs b values)
  | Log a => log (subs a values)
  end.

End Sympy.

(** ** The symbolic engine: [get_sensitivities] *)

#[export] Instance result_ret : MRet result := λ A a, Return a.
#[export] Instance result_bind : MBind result :=
  λ A B k m, match m with Return a => k a | Raise e => Raise e end.

Section Symbolic.
Import Sympy.

(** The target function, applied to sympy symbols; a symbol is identified by
    its name, which is also its [__str__]. *)
Variable function : list expr → result expr.

Definition partially_derivate (all_parameters : list string)
    (single_parameter : string) : result expr :=
  f ← function (Sym <$> all_parameters);
  mret (diff f single_parameter).

(** [m[k]] on a dictionary of values. *)
Definition value_of (parameter_values : gmap string Q) (k : string) : result Q :=
  match parameter_values !! k with
  | Some v => Return v
  | None => Raise (KeyError k)
  end.

Definition get_sensitivity_for_parameter (all_parameters : list string)
    (parameter_values : gmap string Q) (single_parameter : string)
    : result (sensitivity expr) :=
  f ← function (Sym <$> all_parameters);
  let normal_operating_point := subs f parameter_values in
  partial_derivative ← partially_derivate all_parameters single_parameter;
  let absolute := subs partial_derivative parameter_values in
  value ← value_of parameter_values single_parameter;
  let relative :=
    div (mul absolute (Num (Qred value))) normal_operating_point in
  mret (mkSensitivity absolute relative).

(** Lines 75-78. *)
Fixpoint for_symbols (all_parameters : list string)
    (parameter_values : gmap string Q) (parameters : list string)
    (sensitivities : dict (sensitivity expr))
    : result (dict (sensitivity expr)) :=
  match parameters with
  | [] => mret sensitivities
  | parameter :: parameters' =>
      entry ← get_sensitivity_for_parameter all_parameters parameter_values
                parameter;
      for_symbols all_parameters parameter_values parameters'
        (dict_set sensitivities parameter entry)
  end.

Definition get_sensitivities (parameters : list string)
    (parameter_values : gmap string Q) : result (dict (sensitivity expr)) :=
  for_symbols parameters parameter_values parameters [].

End Symbolic.

(** [test_function] of the demo, applied to symbols. *)
Definition symbolic_test_function (args : list Sympy.expr) : result Sympy.expr :=
  match args with
  | [x; y; z; w] =>
      Return (Sympy.mul (Sympy.add (Sympy.mul x y) (Sympy.pow x z)) w)
  | _ => Raise (TypeError "test_function() takes 4 positional arguments")
  end.

Definition demo_symbols : list string := ["x"; "y"; "z"; "w"].


Definition demo_symbol_values : gmap string Q :=
  {[ "x" := 1%Q; "y" := 2%Q; "z" := 3%Q; "w" := 4%Q ]}.

(** The same values without the one of [z]. *)
Definition symbol_values_without_z : gmap string Q :=
  {[ "x" := 1%Q; "y" := 2%Q; "w" := 4%Q ]}.

(** Values at which [(x * y + x**z) * w] is zero. *)
Definition cancelling_symbol_values : gmap string Q :=
  {[ "x" := (-1)%Q; "y" := (-1)%Q; "z" := 3%Q; "w" := 4%Q ]}.

(** ** The interval resolver in the words of the specification

    [Scalar(w)] against [PerParameter(map, default?)], resolved in the order
    explicit interval, named width, default width, error. *)

Module Spec.
Section Resolver.
Context {num : Type} `{PyNum num}.
Local Open Scope py_scope.

(** The explicit interval of a parameter, when one is supplied and is not
    empty. *)
Definition supplied_interval
    (differentiation_intervals : option (gmap string (list num)))
    (parameter : string) : option (list num) :=
  match differentiation_intervals with
  | Some intervals =>
      match intervals !! parameter with
      | Some (low :: rest) => Some (low :: rest)
      | _ => None
      end
  | None => None
  end.

(** The width of a parameter: the scalar, else the named entry, else the
    ["default"] entry. *)
Definition resolve_width (policy : width_policy num) (parameter : string)
    : option num :=
  match policy with
  | WidthFloat w => Some w
  | WidthDict widths =>
      match widths !! parameter with
      | Some w => Some w
      | None => widths !! "default"
      end
  end.

Definition derived_interval (value w : num) : list num :=
  [ value * (num_lit 1 - w); value * (num_lit 1 + w) ].

Definition resolve_interval (policy : width_policy num)
    (differentiation_intervals : option (gmap string (list num)))
    (parameter : string) (value : num) : option (list num) :=
  match supplied_interval differentiation_intervals parameter with
  | Some interval => Some interval
  | None => derived_interval value <$> resolve_width policy parameter
  end.

End Resolver.
End Spec.

(** ** A reading of the engine without the heap

    The arguments of a perturbed call, and the value the loop computes once
    the dictionary behind [parameter_values] is known.  The engine is shown
    below to compute exactly this. *)

Section Reading.
Context {num : Type} `{PyNum num}.
Variable function : list num → result num.
Local Open Scope py_scope.

(** The arguments of the call that puts [value] in the place of
    [parameter]. *)
Definition perturbed (d : dict num) (parameter : string) (value : num)
    : list num :=
  dict_values (dict_set d parameter value).

Definition name_error : exn := NameError "name 'Error' is not defined".

Fixpoint evaluated (d : dict num) (parameter : string)
    (values results : list num) : result (list num) :=
  match values with
  | [] => Return results
  | value :: values' =>
      match function (perturbed d parameter value) with
      | Return r => evaluated d parameter values' (results ++ [r])
      | Raise _ => Raise name_error
      end
  end.

Definition item {V : Type} (l : list V) (i : nat) : result V :=
  match l !! i with
  | Some v => Return v
  | None => Raise (IndexError "list index out of range")
  end.

Definition quotient (a b : num) : result num :=
  if num_eqb b (num_lit 0) then Raise (ZeroDivisionError "division by zero")
  else Return (num_div a b).

Definition resolved (interval_width : width_policy num)
    (differentiation_interval_values : option (gmap string (list num)))
    (parameter : string) (normal_value : num) : result (list num) :=
  match Spec.resolve_interval interval_width differentiation_interval_values
          parameter normal_value with
  | Some interval => Return interval
  | None => Raise (ValueError (missing_interval_message parameter))
  end.

(** The entry of one parameter, before it is stored. *)
Definition entry_of (d : dict num) (normal_operating_point : num)
    (interval_width : width_policy num)
    (differentiation_interval_values : option (gmap string (list num)))
    (parameter : string) (normal_value : num) : result (sensitivity num) :=
  interval ← resolved interval_width differentiation_interval_values
               parameter normal_value;
  results ← evaluated d parameter interval [];
  results_1 ← item results 1;
  results_0 ← item results 0;
  interval_1 ← item interval 1;
  interval_0 ← item interval 0;
  absolute ← quotient (results_1 - results_0) (interval_1 - interval_0);
  relative ← quotient (absolute * normal_value) normal_operating_point;
  mret (mkSensitivity (np_round absolute 0) (np_round relative 2)).

Fixpoint entries_of (d : dict num) (normal_operating_point : num)
    (interval_width : width_policy num)
    (differentiation_interval_values : option (gmap string (list num)))
    (items : dict num) (sensitivities : dict (sensitivity num))
    : result (dict (sensitivity num)) :=
  match items with
  | [] => Return sensitivities
  | (parameter, normal_value) :: items' =>
      entry ← entry_of d normal_operating_point interval_width
                differentiation_interval_values parameter normal_value;
      entries_of d normal_operating_point interval_width
        differentiation_interval_values items'
        (dict_set sensitivities parameter entry)
  end.

Definition sensitivities_of (d : dict num)
    (interval_width : width_policy num)
    (differentiation_interval_values : option (gmap string (list num)))
    : result (dict (sensitivity num)) :=
  normal_operating_point ← function (dict_values d);
  entries_of d normal_operating_point interval_width
    differentiation_interval_values d [].

(** The calls the loop makes for the parameters [items] when nothing fails. *)
Definition perturbed_calls (d : dict num)
    (interval_width : width_policy num)
    (differentiation_interval_values : option (gmap string (list num)))
    (items : dict num) : list (list num) :=
  concat
    (map (λ pv : string * num,
            map (perturbed d pv.1)
                (default [] (Spec.resolve_interval interval_width
                               differentiation_interval_values pv.1 pv.2)))
         items).

(** The ratio of the linearity diagnostic. *)
Definition ratio_of (normal_operating_point results_0 results_1 : num) : num :=
  if num_eqb (results_1 - normal_operating_point) (num_lit 0) then num_lit 1
  else num_div (normal_operating_point - results_0)
               (results_1 - normal_operating_point).

(** The state after one perturbed call: a new dictionary exists and the
    call is logged. *)
Definition after_call (d : dict num) (parameter : string) (value : num)
    (s : state num) : state num :=
  mkState (<[fresh (dom (heap s)) := dict_set d parameter value]> (heap s))
          (stdout s) (calls s ++ [perturbed d parameter value]).

Definition is_Return {A : Type} (r : result A) : Prop :=
  match r with Return _ => True | Raise _ => False end.

(** The locations that exist in [s] keep their contents in [s']. *)
Definition frame (s s' : state num) : Prop :=
  ∀ l : loc, is_Some (heap s !! l) → heap s' !! l = heap s !! l.

End Reading.

(** ** The grid sampler: [get_XYZ] of [contour_plot.py] *)

Section Contour.
Context {num : Type} `{PyNum num}.
Local Open Scope py_scope.

(** [t[i]] on a tuple. *)
Definition tuple_getitem (t : list num) (i : nat) : result num :=
  match t !! i with
  | Some v => Return v
  | None => Raise (IndexError "tuple index out of range")
  end.

(** The sample of index [i] of [np.linspace(start, stop, n)], as numpy
    computes it: [i * step + start] with [step = (stop - start) / (n - 1)];
    [(i / (n - 1)) * (stop - start) + start] when that step is zero; and
    [i * (stop - start) + start] when [n - 1] is not positive. *)
Definition linspace_sample (start stop : num) (n i : Z) : num :=
  let div := (n - 1)%Z in
  let delta := stop - start in
  if (0 <? div)%Z then
    let step := num_div delta (num_lit (inject_Z div)) in
    if num_eqb step (num_lit 0) then
      num_div (num_lit (inject_Z i)) (num_lit (inject_Z div)) * delta + start
    else num_lit (inject_Z i) * step + start
  else num_lit (inject_Z i) * delta + start.

(** [y[-1] = stop] *)
Definition set_last (y : list num) (stop : num) : list num :=
  <[pred (length y) := stop]> y.

(** [np.linspace(start, stop, n)], with the end point. *)
Definition np_linspace (start stop : num) (n : Z) : result (list num) :=
  if (n <? 0)%Z then
    Raise (ValueError ("Number of samples, " +:+ pretty n
                       +:+ ", must be non-negative."))
  else
    let y := linspace_sample start stop n <$> seqZ 0 n in
    Return (if (1 <? n)%Z then set_last y stop else y).

(** [np.zeros((n, n))], a list of rows. *)
Definition np_zeros (n : Z) : list (list num) :=
  replicate (Z.to_nat n) (replicate (Z.to_nat n) (num_lit 0)).

(** [Z[ix, iy] = v] *)
Definition array_setitem (Z : list (list num)) (ix iy : nat) (v : num)
    : result (list (list num)) :=
  match Z !! ix with
  | Some row =>
      if decide (iy < length row)%nat then Return (<[ix := <[iy := v]> row]> Z)
      else Raise (IndexError "index is out of bounds for axis 1")
  | None => Raise (IndexError "index is out of bounds for axis 0")
  end.

(** The function to plot, [f(x, y)]. *)
Variable function : num → num → result num.

(** Lines 29-30: [for iy, y in enumerate(Y)]. *)
Fixpoint for_y (x : num) (ix : nat) (ys : list num) (iy : nat)
    (Z : list (list num)) : result (list (list num)) :=
  match ys with
  | [] => Return Z
  | y :: ys' =>
      v ← function x y;
      Z' ← array_setitem Z ix iy v;
      for_y x ix ys' (S iy) Z'
  end.

(** Lines 28-30: [for ix, x in enumerate(X)]. *)
Fixpoint for_x (xs : list num) (ix : nat) (Y : list num)
    (Z : list (list num)) : result (list (list num)) :=
  match xs with
  | [] => Return Z
  | x :: xs' =>
      Z' ← for_y x ix Y 0 Z;
      for_x xs' (S ix) Y Z'
  end.

Definition get_XYZ (x_range y_range : list num) (n_steps : Z)
    : result (list num * list num * list (list num)) :=
  x_low ← tuple_getitem x_range 0;
  x_high ← tuple_getitem x_range 1;
  X ← np_linspace x_low x_high n_steps;
  y_low ← tuple_getitem y_range 0;
  y_high ← tuple_getitem y_range 1;
  Y ← np_linspace y_low y_high n_steps;
  Z ← for_x X 0 Y (np_zeros n_steps);
  mret (X, Y, Z).

(** The values of one row and of the grid, in the order of evaluation. *)
Fixpoint row_of (x : num) (ys : list num) : result (list num) :=
  match ys with
  | [] => Return []
  | y :: ys' => v ← function x y; vs ← row_of x ys'; mret (v :: vs)
  end.

Fixpoint grid_of (xs ys : list num) : result (list (list num)) :=
  match xs with
  | [] => Return []
  | x :: xs' => row ← row_of x ys; rows ← grid_of xs' ys; mret (row :: rows)
  end.

End Contour.

(** The default of the signature: [n_steps=100]. *)
Definition default_n_steps : Z := 100.

(** * Properties *)

(** ** Dictionaries *)

Section DictFacts.
Context {V : Type}.
Implicit Types (d : dict V) (k : string) (v : V).

Lemma assoc_dict_set_eq d k v : assoc k (dict_set d k v) = Some v.
Proof.
  induction d as [|[k' v'] d IH]; simpl.
  - by rewrite String.eqb_refl.
  - destruct (String.eqb k' k) eqn:E; simpl; rewrite E; [done | exact IH].
Qed.

Lemma assoc_dict_set_ne d k k' v :
  k ≠ k' → assoc k' (dict_set d k v) = assoc k' d.
Proof.
  intros Hne. induction d as [|[k0 v0] d IH]; simpl.
  - destruct (String.eqb k k') eqn:E; [|done].
    apply String.eqb_eq in E. contradiction.
  - destruct (String.eqb k0 k) eqn:E; simpl.
    + apply String.eqb_eq in E. subst k0.
      destruct (String.eqb k k') eqn:E'; [|done].
      apply String.eqb_eq in E'. contradiction.
    + by rewrite IH.
Qed.

Lemma dict_keys_set_notin d k v :
  k ∉@{list string} dict_keys d → dict_keys (dict_set d k v) = dict_keys d ++ [k].
Proof.
  unfold dict_keys. induction d as [|[k' v'] d IH]; simpl; intros Hin; [done|].
  destruct (String.eqb k' k) eqn:E; simpl.
  - apply String.eqb_eq in E. subst. exfalso. apply Hin. by left.
  - f_equal. apply IH. intros ?. apply Hin. by right.
Qed.

Lemma elem_of_dict_set d k v k' v' :
  (k', v') ∈ dict_set d k v → (k', v') ∈ d ∨ (k' = k ∧ v' = v).
Proof.
  induction d as [|[k0 v0] d IH]; simpl; intros Hin.
  - apply list_elem_of_singleton in Hin. injection Hin as -> ->. by right.
  - destruct (String.eqb k0 k) eqn:E.
    + apply String.eqb_eq in E. subst k0.
      apply elem_of_cons in Hin as [Heq|Hin].
      * injection Heq as -> ->. by right.
      * left. by right.
    + apply elem_of_cons in Hin as [Heq|Hin].
      * left. rewrite Heq. by left.
      * destruct (IH Hin) as [?|?]; [left; by right | by right].
Qed.

End DictFacts.

(** ** The engine computes its heap-free reading *)

Section NumericalFacts.
Context {num : Type} `{PyNum num}.
Variable function : list num → result num.
Local Open Scope py_scope.

Implicit Types (s : state num) (d : dict num) (parameter : string).

Lemma frame_refl s : frame s s.
Proof. by intros l _. Qed.

Lemma frame_trans s1 s2 s3 : frame s1 s2 → frame s2 s3 → frame s1 s3.
Proof.
  intros H12 H23 l Hl. rewrite <- (H12 l Hl). apply H23.
  by rewrite (H12 l Hl).
Qed.

Lemma frame_lookup s s' l d : frame s s' → heap s !! l = Some d → heap s' !! l = Some d.
Proof. intros Hf Hl. rewrite (Hf l); [done | by rewrite Hl]. Qed.

Lemma fresh_heap s : heap s !! fresh (dom (heap s)) = None.
Proof. apply not_elem_of_dom. apply is_fresh. Qed.

Lemma frame_alloc s items out log :
  frame s (mkState (<[fresh (dom (heap s)) := items]> (heap s)) out log).
Proof.
  intros l [x Hl]. simpl. rewrite lookup_insert_ne; [done|].
  intros <-. by rewrite fresh_heap in Hl.
Qed.

(** One perturbed call: lines 142-149. *)
Lemma perturbed_call_run (parameter_values : loc) d parameter value s :
  heap s !! parameter_values = Some d →
  (function_inputs ← dict_copy parameter_values;
   dict_setitem function_inputs parameter value;;
   args ← dict_values_of function_inputs;
   try_except (call function args) (except_Error value parameter)) s
  = (match function (perturbed d parameter value) with
     | Return r => Return r
     | Raise _ => Raise name_error
     end, after_call d parameter value s).
Proof.
  intros Hd. unfold mbind, M_bind, bind, dict_copy. rewrite Hd.
  unfold dict_setitem. simpl. rewrite lookup_insert_eq. simpl.
  unfold dict_values_of, dict_items_of, mbind, M_bind, bind. simpl.
  rewrite lookup_insert_eq. simpl. rewrite insert_insert_eq.
  unfold try_except, call, after_call, perturbed. simpl.
  destruct (function _); reflexivity.
Qed.

Lemma after_call_frame d parameter value s : frame s (after_call d parameter value s).
Proof. apply frame_alloc. Qed.

Lemma explicit_interval_run
    (differentiation_interval_values : option (gmap string (list num)))
    parameter s :
  explicit_interval differentiation_interval_values parameter s
  = (Return (intervals ← differentiation_interval_values; intervals !! parameter), s).
Proof.
  unfold explicit_interval, try_except, getitem_or_None, getitem.
  destruct differentiation_interval_values as [intervals|]; simpl; [|done].
  unfold mbind at 1, M_bind, bind. by destruct (intervals !! parameter).
Qed.

Lemma relative_width_run (interval_width : width_policy num) parameter s :
  relative_width interval_width parameter s
  = (match Spec.resolve_width interval_width parameter with
     | Some w => Return w
     | None => Raise (ValueError (missing_interval_message parameter))
     end, s).
Proof.
  destruct interval_width as [widths|w]; simpl; [|done].
  unfold try_except, getitem.
  destruct (widths !! parameter); simpl; [done|].
  by destruct (widths !! "default").
Qed.

Lemma differentiation_interval_run (interval_width : width_policy num)
    (differentiation_interval_values : option (gmap string (list num)))
    parameter (normal_value : num) s :
  differentiation_interval interval_width differentiation_interval_values
    parameter normal_value s
  = (resolved interval_width differentiation_interval_values parameter
       normal_value, s).
Proof.
  unfold differentiation_interval, mbind at 1, M_bind, bind.
  rewrite explicit_interval_run.
  unfold resolved, Spec.resolve_interval, Spec.supplied_interval.
  destruct differentiation_interval_values as [intervals|]; simpl.
  - destruct (intervals !! parameter) as [[|low rest]|]; simpl; try done;
      unfold mbind, M_bind, bind; rewrite relative_width_run;
      by destruct (Spec.resolve_width interval_width parameter).
  - unfold mbind, M_bind, bind. rewrite relative_width_run.
    by destruct (Spec.resolve_width interval_width parameter).
Qed.

Lemma evaluate_interval_cons (parameter_values : loc) parameter
    (value : num) (values results : list num) s :
  evaluate_interval function parameter_values parameter (value :: values) results s
  = (result ← (function_inputs ← dict_copy parameter_values;
               dict_setitem function_inputs parameter value;;
               args ← dict_values_of function_inputs;
               try_except (call function args) (except_Error value parameter));
     evaluate_interval function parameter_values parameter values
       (results ++ [result])) s.
Proof.
  cbn [evaluate_interval]. unfold mbind, M_bind, bind.
  destruct (dict_copy parameter_values s) as [[l|e] s1]; [|done].
  destruct (dict_setitem l parameter value s1) as [[[]|e] s2]; [|done].
  by destruct (dict_values_of l s2) as [[args|e] s3].
Qed.

Lemma evaluate_interval_run (parameter_values : loc) d parameter
    (values results : list num) s :
  heap s !! parameter_values = Some d →
  ∃ s', evaluate_interval function parameter_values parameter values results s
        = (evaluated function d parameter values results, s')
      ∧ frame s s' ∧ stdout s' = stdout s
      ∧ (is_Return (evaluated function d parameter values results) →
         calls s' = calls s ++ map (perturbed d parameter) values).
Proof.
  revert results s. induction values as [|value values IH]; intros results s Hd.
  - exists s. simpl. split_and!; [done | apply frame_refl | done |].
    intros _. by rewrite app_nil_r.
  - rewrite evaluate_interval_cons. unfold mbind at 1, M_bind at 1, bind at 1.
    rewrite (perturbed_call_run parameter_values d parameter value s Hd).
    cbn [evaluated].
    destruct (function (perturbed d parameter value)) as [r|e].
    + destruct (IH (results ++ [r]) (after_call d parameter value s))
        as (s' & Heq & Hf & Hout & Hcalls).
      { eapply frame_lookup; [apply after_call_frame | done]. }
      exists s'. split_and!; [done | | done |].
      * eapply frame_trans; [apply after_call_frame | done].
      * intros Hr. rewrite (Hcalls Hr). simpl. by rewrite <- app_assoc.
    + exists (after_call d parameter value s).
      split_and!; [done | apply after_call_frame | done | by intros []].
Qed.

Lemma list_getitem_run {V : Type} (l : list V) (i : nat) s :
  list_getitem l i s = (item l i, s).
Proof. unfold list_getitem, item. by destruct (l !! i). Qed.

Lemma truediv_run (a b : num) s : truediv a b s = (quotient a b, s).
Proof. unfold truediv, quotient. by destruct (num_eqb b (num_lit 0)). Qed.

Lemma linearity_ratio_run (normal_operating_point : num) (results : list num)
    (results_0 results_1 : num) s :
  results !! 0%nat = Some results_0 → results !! 1%nat = Some results_1 →
  linearity_ratio normal_operating_point results s
  = (Return (ratio_of normal_operating_point results_0 results_1), s).
Proof.
  intros H0 H1. unfold linearity_ratio, try_except, mbind, M_bind, bind.
  rewrite !list_getitem_run. unfold item. rewrite H0, H1.
  rewrite truediv_run. unfold quotient, ratio_of.
  by destruct (num_eqb (results_1 - normal_operating_point) (num_lit 0)).
Qed.

Lemma linearity_diagnostic_run (normal_operating_point : num)
    (results : list num) (results_0 results_1 : num) parameter s :
  results !! 0%nat = Some results_0 → results !! 1%nat = Some results_1 →
  linearity_diagnostic normal_operating_point results parameter s
  = (Return tt,
     mkState (heap s)
       (stdout s ++
          let ratio := ratio_of normal_operating_point results_0 results_1 in
          if num_eqb (np_round ratio 5) (num_lit 1) then []
          else [not_linear_message parameter ratio])
       (calls s)).
Proof.
  intros H0 H1. unfold linearity_diagnostic, mbind, M_bind, bind.
  rewrite (linearity_ratio_run _ _ _ _ _ H0 H1). cbn zeta.
  destruct (num_eqb _ (num_lit 1)); [|done].
  rewrite app_nil_r. by destruct s.
Qed.

Lemma loop_body_run (parameter_values : loc) d (normal_operating_point : num)
    (interval_width : width_policy num)
    (differentiation_interval_values : option (gmap string (list num)))
    (sensitivities : dict (sensitivity num)) parameter (normal_value : num) s :
  heap s !! parameter_values = Some d →
  ∃ s', loop_body function parameter_values normal_operating_point
          interval_width differentiation_interval_values sensitivities
          parameter normal_value s
        = (entry ← entry_of function d normal_operating_point interval_width
                     differentiation_interval_values parameter normal_value;
           mret (dict_set sensitivities parameter entry), s')
      ∧ frame s s'
      ∧ (is_Return (entry_of function d normal_operating_point interval_width
                      differentiation_interval_values parameter normal_value) →
         calls s' = calls s ++
           map (perturbed d parameter)
             (default [] (Spec.resolve_interval interval_width
                differentiation_interval_values parameter normal_value))).
Proof.
  intros Hd. unfold loop_body, entry_of.
  unfold mbind at 1, M_bind at 1, bind at 1.
  rewrite differentiation_interval_run. unfold resolved.
  destruct (Spec.resolve_interval _ _ _ _) as [interval|]; simpl;
    [|exists s; split_and!; [done | apply frame_refl | by intros []]].
  destruct (evaluate_interval_run parameter_values d parameter interval [] s Hd)
    as (s1 & Heq & Hf & Hout & Hcalls).
  unfold mbind at 1, M_bind at 1, bind at 1. rewrite Heq.
  destruct (evaluated function d parameter interval []) as [results|e]; simpl;
    [|exists s1; split_and!; [done | done | by intros []]].
  unfold mbind, M_bind, bind. rewrite !list_getitem_run. unfold item.
  destruct (results !! 1%nat) as [results_1|] eqn:H1; simpl;
    [|exists s1; split_and!; [done | done | by intros []]].
  destruct (results !! 0%nat) as [results_0|] eqn:H0; simpl;
    [|exists s1; split_and!; [done | done | by intros []]].
  destruct (interval !! 1%nat) as [interval_1|]; simpl;
    [|exists s1; split_and!; [done | done | by intros []]].
  destruct (interval !! 0%nat) as [interval_0|]; simpl;
    [|exists s1; split_and!; [done | done | by intros []]].
  rewrite truediv_run.
  destruct (quotient (results_1 - results_0) (interval_1 - interval_0))
    as [absolute|e]; simpl;
    [|exists s1; split_and!; [done | done | by intros []]].
  rewrite truediv_run.
  destruct (quotient (absolute * normal_value) normal_operating_point)
    as [relative|e]; simpl;
    [|exists s1; split_and!; [done | done | by intros []]].
  rewrite (linearity_diagnostic_run _ _ _ _ _ _ H0 H1).
  eexists. split_and!; [done | | ].
  - intros l Hl. simpl. by apply Hf.
  - intros _. simpl. by apply Hcalls.
Qed.

Lemma for_parameters_run (parameter_values : loc) d (normal_operating_point : num)
    (interval_width : width_policy num)
    (differentiation_interval_values : option (gmap string (list num)))
    (items : dict num) (sensitivities : dict (sensitivity num)) s :
  heap s !! parameter_values = Some d →
  ∃ s', for_parameters function parameter_values normal_operating_point
          interval_width differentiation_interval_values items sensitivities s
        = (entries_of function d normal_operating_point interval_width
             differentiation_interval_values items sensitivities, s')
      ∧ frame s s'
      ∧ (is_Return (entries_of function d normal_operating_point interval_width
                      differentiation_interval_values items sensitivities) →
         calls s' = calls s ++
           perturbed_calls d interval_width differentiation_interval_values items).
Proof.
  revert sensitivities s.
  induction items as [|[parameter normal_value] items IH]; intros sensitivities s Hd.
  - exists s. split_and!; [done | apply frame_refl |].
    intros _. unfold perturbed_calls. simpl. by rewrite app_nil_r.
  - cbn [for_parameters entries_of].
    destruct (loop_body_run parameter_values d normal_operating_point
                interval_width differentiation_interval_values sensitivities
                parameter normal_value s Hd) as (s1 & Heq & Hf & Hcalls).
    unfold mbind at 1, M_bind at 1, bind at 1. rewrite Heq.
    destruct (entry_of function d normal_operating_point interval_width
                differentiation_interval_values parameter normal_value)
      as [entry|e]; simpl;
      [|exists s1; split_and!; [done | done | by intros []]].
    destruct (IH (dict_set sensitivities parameter entry) s1)
      as (s2 & Heq2 & Hf2 & Hcalls2); [by eapply frame_lookup|].
    exists s2. split_and!; [done | by eapply frame_trans |].
    intros Hr. rewrite (Hcalls2 Hr), (Hcalls I).
    unfold perturbed_calls. simpl. by rewrite <- app_assoc.
Qed.

Lemma get_sensitivities_numerical_run (parameter_values : loc) d
    (interval_width : width_policy num)
    (differentiation_interval_values : option (gmap string (list num))) s :
  heap s !! parameter_values = Some d →
  ∃ s', get_sensitivities_numerical function parameter_values interval_width
          differentiation_interval_values s
        = (sensitivities_of function d interval_width
             differentiation_interval_values, s')
      ∧ frame s s'
      ∧ (is_Return (sensitivities_of function d interval_width
                      differentiation_interval_values) →
         calls s' = calls s ++ dict_values d ::
           perturbed_calls d interval_width differentiation_interval_values d).
Proof.
  intros Hd.
  unfold get_sensitivities_numerical, sensitivities_of, dict_values_of,
    dict_items_of.
  cbv [mbind M_bind bind mret M_ret ret result_bind call]. rewrite Hd.
  cbn [heap stdout calls].
  destruct (function (dict_values d)) as [normal_operating_point|e].
  - rewrite Hd.
    destruct (for_parameters_run parameter_values d normal_operating_point
                interval_width differentiation_interval_values d []
                (mkState (heap s) (stdout s) (calls s ++ [dict_values d])) Hd)
      as (s' & Heq & Hf & Hcalls).
    exists s'. split_and!; [done | done |].
    intros Hr. rewrite (Hcalls Hr). simpl. by rewrite <- app_assoc.
  - eexists. split_and!; [done | | by intros []]. by intros l Hl.
Qed.

(** The call never changes an object that existed before it. *)
Lemma get_sensitivities_numerical_frame (parameter_values : loc)
    (interval_width : width_policy num)
    (differentiation_interval_values : option (gmap string (list num))) s :
  frame s (get_sensitivities_numerical function parameter_values interval_width
             differentiation_interval_values s).2.
Proof.
  destruct (heap s !! parameter_values) as [d|] eqn:Hd.
  - destruct (get_sensitivities_numerical_run parameter_values d interval_width
                differentiation_interval_values s Hd) as (s' & -> & Hf & _).
    done.
  - unfold get_sensitivities_numerical, dict_values_of, dict_items_of.
    unfold mbind, M_bind, bind. rewrite Hd. simpl. apply frame_refl.
Qed.

End NumericalFacts.

(** ** What a successful run has computed *)

Section ReadingFacts.
Context {num : Type} `{PyNum num}.
Variable function : list num → result num.
Local Open Scope py_scope.

Implicit Types (d items : dict num) (parameter : string).

Lemma evaluated_Return d parameter (values results results' : list num) :
  evaluated function d parameter values results = Return results' →
  ∃ new, results' = results ++ new
       ∧ Forall2 (λ value r, function (perturbed d parameter value) = Return r)
           values new.
Proof.
  revert results. induction values as [|value values IH]; simpl; intros results Hev.
  - exists []. injection Hev as <-. by rewrite app_nil_r.
  - destruct (function (perturbed d parameter value)) as [r|e] eqn:Hf; [|done].
    destruct (IH _ Hev) as (new & -> & Hall).
    exists (r :: new). rewrite <- app_assoc. split; [done|]. by constructor.
Qed.

Lemma evaluated_Raise d parameter (values results : list num) (e : exn) :
  evaluated function d parameter values results = Raise e → e = name_error.
Proof.
  revert results. induction values as [|value values IH]; simpl; intros results Hev.
  - done.
  - destruct (function (perturbed d parameter value)) as [r|e'].
    + by eapply IH.
    + by injection Hev as <-.
Qed.

(** The formulas behind one entry. *)
Lemma entry_of_Return d (normal_operating_point : num)
    (interval_width : width_policy num)
    (differentiation_interval_values : option (gmap string (list num)))
    parameter (normal_value : num) (entry : sensitivity num) :
  entry_of function d normal_operating_point interval_width
    differentiation_interval_values parameter normal_value = Return entry →
  ∃ low high rest f_low f_high,
    Spec.resolve_interval interval_width differentiation_interval_values
      parameter normal_value = Some (low :: high :: rest)
    ∧ function (perturbed d parameter low) = Return f_low
    ∧ function (perturbed d parameter high) = Return f_high
    ∧ num_eqb (high - low) (num_lit 0) = false
    ∧ num_eqb normal_operating_point (num_lit 0) = false
    ∧ entry =
        let absolute := num_div (f_high - f_low) (high - low) in
        let relative := num_div (absolute * normal_value) normal_operating_point in
        mkSensitivity (np_round absolute 0) (np_round relative 2).
Proof.
  unfold entry_of, resolved. intros Hentry.
  destruct (Spec.resolve_interval _ _ _ _) as [interval|]; [|done].
  cbn in Hentry.
  destruct (evaluated function d parameter interval []) as [results|e] eqn:Hev;
    [|done].
  apply evaluated_Return in Hev as (new & -> & Hall). cbn in Hentry.
  unfold item in Hentry.
  destruct Hall as [|low f_low interval' new' Hlow Hall]; [done|].
  destruct Hall as [|high f_high rest new'' Hhigh Hall]; [done|].
  cbn in Hentry. unfold quotient in Hentry.
  destruct (num_eqb (high - low) (num_lit 0)) eqn:Hwidth; [done|]. cbn in Hentry.
  destruct (num_eqb normal_operating_point (num_lit 0)) eqn:Hnop; [done|].
  cbn in Hentry. injection Hentry as <-.
  by exists low, high, rest, f_low, f_high.
Qed.

Lemma entries_of_Return d (normal_operating_point : num)
    (interval_width : width_policy num)
    (differentiation_interval_values : option (gmap string (list num)))
    items (sensitivities0 sensitivities : dict (sensitivity num)) :
  entries_of function d normal_operating_point interval_width
    differentiation_interval_values items sensitivities0 = Return sensitivities →
  (** every entry comes from the start or from one of the parameters *)
  (∀ parameter entry, (parameter, entry) ∈ sensitivities →
     (parameter, entry) ∈ sensitivities0
     ∨ ∃ normal_value, (parameter, normal_value) ∈ items
         ∧ entry_of function d normal_operating_point interval_width
             differentiation_interval_values parameter normal_value
           = Return entry)
  (** a name that is not a parameter keeps its entry *)
  ∧ (∀ parameter, parameter ∉@{list string} dict_keys items →
       assoc parameter sensitivities = assoc parameter sensitivities0)
  (** distinct parameter names *)
  ∧ (NoDup (dict_keys items) →
     (∀ parameter normal_value, (parameter, normal_value) ∈ items →
        ∃ entry, entry_of function d normal_operating_point interval_width
                   differentiation_interval_values parameter normal_value
                 = Return entry
               ∧ assoc parameter sensitivities = Some entry)
     ∧ ((∀ parameter, parameter ∈@{list string} dict_keys items →
           parameter ∉@{list string} dict_keys sensitivities0) →
        dict_keys sensitivities = dict_keys sensitivities0 ++ dict_keys items)).
Proof.
  revert sensitivities0.
  induction items as [|[p v] items IH]; intros sensitivities0 Hrun.
  - injection Hrun as <-. split_and!.
    + intros. by left.
    + done.
    + intros _. split; [intros ?? Hin; by apply elem_of_nil in Hin|].
      intros _. simpl. by rewrite app_nil_r.
  - cbn [entries_of] in Hrun.
    destruct (entry_of function d normal_operating_point interval_width
                differentiation_interval_values p v) as [entry|e] eqn:Hentry;
      [|done].
    cbn in Hrun. destruct (IH _ Hrun) as (Hfrom & Hother & Hdistinct).
    split_and!.
    + intros parameter entry' Hin.
      destruct (Hfrom _ _ Hin) as [Hin0|(nv & Hin' & He)].
      * apply elem_of_dict_set in Hin0 as [Hin0|[-> ->]]; [by left|].
        right. exists v. split; [by left | done].
      * right. exists nv. split; [by right | done].
    + intros parameter Hnot. rewrite Hother.
      * apply assoc_dict_set_ne. intros ->. apply Hnot. by left.
      * intros ?. apply Hnot. by right.
    + intros Hnd. apply NoDup_cons in Hnd as [Hp Hnd].
      destruct (Hdistinct Hnd) as [Hlookup Hkeys]. split.
      * intros parameter nv Hin. apply elem_of_cons in Hin as [Heq|Hin].
        -- injection Heq as -> ->. exists entry. split; [done|].
           rewrite (Hother p Hp). apply assoc_dict_set_eq.
        -- by apply Hlookup.
      * intros Hfresh.
        assert (p ∉@{list string} dict_keys sensitivities0) as Hp0
          by (apply Hfresh; by left).
        rewrite Hkeys.
        -- rewrite (dict_keys_set_notin _ _ _ Hp0). simpl.
           by rewrite <- app_assoc.
        -- intros parameter Hin. rewrite (dict_keys_set_notin _ _ _ Hp0).
           intros [Hin0|Hin1]%elem_of_app.
           ++ revert Hin0. apply Hfresh. by right.
           ++ apply list_elem_of_singleton in Hin1. by subst.
Qed.

End ReadingFacts.

(** ** The numerical engine *)

Section NumericalClaims.
Context {num : Type} `{PyNum num}.
Variable function : list num → result num.
Local Open Scope py_scope.

Implicit Types (s : state num) (d : dict num) (parameter : string).

(** A failed evaluation at a perturbed value always ends in the
    [NameError] of the unbound name [Error]: the wrapping [ValueError] of
    line 147 is never built. *)
Lemma evaluate_interval_failure (parameter_values : loc) d parameter
    (value : num) (values results : list num) (e : exn) s :
  heap s !! parameter_values = Some d →
  function (perturbed d parameter value) = Raise e →
  (evaluate_interval function parameter_values parameter (value :: values)
     results s).1 = Raise name_error.
Proof.
  intros Hd Hf.
  destruct (evaluate_interval_run function parameter_values d parameter
              (value :: values) results s Hd) as (s' & -> & _).
  simpl. by rewrite Hf.
Qed.

(** C2. On a successful call the operating-point output is computed by one
    call on the unperturbed values, the first call of the run, followed only
    by the perturbed calls; and for every parameter [p] with value [v] and
    interval [[low, high]] the entry stored is the rounding of
    [absolute = (f(high) - f(low)) / (high - low)] and of
    [relative = absolute * v / f(operating point)], with that one
    operating-point output for all parameters. *)
Theorem C2_sensitivity_formulas (parameter_values : loc) d
    (interval_width : width_policy num)
    (differentiation_interval_values : option (gmap string (list num)))
    s (sensitivities : dict (sensitivity num)) s' :
  heap s !! parameter_values = Some d →
  NoDup (dict_keys d) →
  get_sensitivities_numerical function parameter_values interval_width
    differentiation_interval_values s = (Return sensitivities, s') →
  ∃ normal_operating_point,
    function (dict_values d) = Return normal_operating_point
    ∧ calls s' = calls s ++ dict_values d ::
        perturbed_calls d interval_width differentiation_interval_values d
    ∧ ∀ parameter (normal_value : num), (parameter, normal_value) ∈ d →
        ∃ low high rest f_low f_high,
          Spec.resolve_interval interval_width differentiation_interval_values
            parameter normal_value = Some (low :: high :: rest)
          ∧ function (perturbed d parameter low) = Return f_low
          ∧ function (perturbed d parameter high) = Return f_high
          ∧ let absolute := num_div (f_high - f_low) (high - low) in
            let relative :=
              num_div (absolute * normal_value) normal_operating_point in
            assoc parameter sensitivities
            = Some (mkSensitivity (np_round absolute 0) (np_round relative 2)).
Proof.
  intros Hd Hnd Hrun.
  destruct (get_sensitivities_numerical_run function parameter_values d
              interval_width differentiation_interval_values s Hd)
    as (s1 & Heq & _ & Hcalls).
  rewrite Hrun in Heq. injection Heq as Hres <-.
  rewrite <- Hres in Hcalls. specialize (Hcalls I).
  unfold sensitivities_of in Hres.
  destruct (function (dict_values d)) as [normal_operating_point|e]; [|done].
  cbn in Hres. exists normal_operating_point. split_and!; [done | done |].
  symmetry in Hres.
  destruct (entries_of_Return function _ _ _ _ _ _ _ Hres) as (_ & _ & Hdistinct).
  destruct (Hdistinct Hnd) as [Hlookup _].
  intros parameter normal_value Hin.
  destruct (Hlookup _ _ Hin) as (entry & Hentry & Hassoc).
  apply entry_of_Return in Hentry
    as (low & high & rest & f_low & f_high & Hint & Hlow & Hhigh & _ & _ & ->).
  by exists low, high, rest, f_low, f_high.
Qed.

(** C3. The interval of a parameter: an explicit interval that is not
    empty is taken as it is, whatever the width policy; otherwise the
    interval is [[v * (1 - w), v * (1 + w)]] with [w] the named entry of a
    mapping policy, else its ["default"] entry, else the scalar policy. *)
Theorem C3_interval_resolution (interval_width : width_policy num)
    (differentiation_interval_values : option (gmap string (list num)))
    parameter (normal_value : num) s :
  (∀ intervals low rest,
     differentiation_interval_values = Some intervals →
     intervals !! parameter = Some (low :: rest) →
     differentiation_interval interval_width differentiation_interval_values
       parameter normal_value s = (Return (low :: rest), s))
  ∧ (Spec.supplied_interval differentiation_interval_values parameter = None →
     (∀ widths w,
        interval_width = WidthDict widths → widths !! parameter = Some w →
        differentiation_interval interval_width differentiation_interval_values
          parameter normal_value s
        = (Return [normal_value * (num_lit 1 - w);
                   normal_value * (num_lit 1 + w)], s))
     ∧ (∀ widths w,
          interval_width = WidthDict widths → widths !! parameter = None →
          widths !! "default" = Some w →
          differentiation_interval interval_width
            differentiation_interval_values parameter normal_value s
          = (Return [normal_value * (num_lit 1 - w);
                     normal_value * (num_lit 1 + w)], s))
     ∧ (∀ w,
          interval_width = WidthFloat w →
          differentiation_interval interval_width
            differentiation_interval_values parameter normal_value s
          = (Return [normal_value * (num_lit 1 - w);
                     normal_value * (num_lit 1 + w)], s)))
  ∧ differentiation_interval interval_width differentiation_interval_values
      parameter normal_value s
    = (match Spec.resolve_interval interval_width
               differentiation_interval_values parameter normal_value with
       | Some interval => Return interval
       | None => Raise (ValueError (missing_interval_message parameter))
       end, s).
Proof.
  rewrite differentiation_interval_run. unfold resolved, Spec.resolve_interval.
  split_and!.
  - intros intervals low rest -> Hint. simpl. by rewrite Hint.
  - intros ->. split_and!.
    + intros widths w -> Hw. simpl. by rewrite Hw.
    + intros widths w -> Hw Hdefault. simpl. by rewrite Hw, Hdefault.
    + by intros w ->.
  - done.
Qed.

Lemma entries_of_app d (normal_operating_point : num)
    (interval_width : width_policy num)
    (differentiation_interval_values : option (gmap string (list num)))
    (items1 items2 : dict num) (sensitivities : dict (sensitivity num)) :
  entries_of function d normal_operating_point interval_width
    differentiation_interval_values (items1 ++ items2) sensitivities
  = (sensitivities1 ← entries_of function d normal_operating_point
                        interval_width differentiation_interval_values
                        items1 sensitivities;
     entries_of function d normal_operating_point interval_width
       differentiation_interval_values items2 sensitivities1).
Proof.
  revert sensitivities.
  induction items1 as [|[p v] items1 IH]; intros sensitivities; [done|].
  cbn [entries_of app].
  destruct (entry_of function d normal_operating_point interval_width
              differentiation_interval_values p v) as [entry|e]; [|done].
  cbn. apply IH.
Qed.

Lemma entries_of_all_Return d (normal_operating_point : num)
    (interval_width : width_policy num)
    (differentiation_interval_values : option (gmap string (list num)))
    (items : dict num) (sensitivities : dict (sensitivity num)) :
  (∀ q w, (q, w) ∈ items →
     is_Return (entry_of function d normal_operating_point interval_width
                  differentiation_interval_values q w)) →
  is_Return (entries_of function d normal_operating_point interval_width
               differentiation_interval_values items sensitivities).
Proof.
  revert sensitivities.
  induction items as [|[p v] items IH]; intros sensitivities Hall; [done|].
  cbn [entries_of].
  pose proof (Hall p v ltac:(by left)) as Hp.
  destruct (entry_of function d normal_operating_point interval_width
              differentiation_interval_values p v) as [entry|e]; [|done].
  cbn. apply IH. intros q w Hin. apply Hall. by right.
Qed.

(** C4. With a mapping for [interval_width], a parameter that has no
    explicit interval, no entry of its own and no ["default"] entry makes
    the call fail: no mapping is returned, whatever the other parameters
    are; and when the operating point and the parameters before it are
    evaluated without error, the exception is the [ValueError] whose
    message names that parameter. *)
Theorem C4_missing_width_is_fatal (parameter_values : loc)
    (before after : dict num) parameter (normal_value : num)
    (widths : gmap string num)
    (differentiation_interval_values : option (gmap string (list num))) s :
  let d := before ++ (parameter, normal_value) :: after in
  let run := get_sensitivities_numerical function parameter_values
               (WidthDict widths) differentiation_interval_values s in
  heap s !! parameter_values = Some d →
  Spec.supplied_interval differentiation_interval_values parameter = None →
  widths !! parameter = None →
  widths !! "default" = None →
  (∃ e, run.1 = Raise e)
  ∧ (∀ normal_operating_point,
       function (dict_values d) = Return normal_operating_point →
       (∀ q w, (q, w) ∈ before →
          is_Return (entry_of function d normal_operating_point
                       (WidthDict widths) differentiation_interval_values q w)) →
       run.1 = Raise (ValueError (missing_interval_message parameter))).
Proof.
  intros d run Hd Hexplicit Hnamed Hdefault. subst run.
  destruct (get_sensitivities_numerical_run function parameter_values d
              (WidthDict widths) differentiation_interval_values s Hd)
    as (s' & -> & _).
  cbn [fst]. unfold sensitivities_of.
  assert (∀ nop, entry_of function d nop (WidthDict widths)
                   differentiation_interval_values parameter normal_value
                 = Raise (ValueError (missing_interval_message parameter)))
    as Hentry.
  { intros nop. unfold entry_of, resolved, Spec.resolve_interval.
    rewrite Hexplicit. simpl. by rewrite Hnamed, Hdefault. }
  split.
  - destruct (function (dict_values d)) as [nop|e]; [|by eexists].
    cbn. subst d. rewrite entries_of_app.
    destruct (entries_of function _ nop (WidthDict widths)
                differentiation_interval_values before []) as [sens|e];
      [|by eexists].
    cbn. rewrite Hentry. by eexists.
  - intros nop -> Hbefore. cbn. subst d. rewrite entries_of_app.
    pose proof (entries_of_all_Return _ nop (WidthDict widths)
                  differentiation_interval_values before [] Hbefore) as Hret.
    destruct (entries_of function _ nop (WidthDict widths)
                differentiation_interval_values before []) as [sens|e];
      [|done].
    cbn. by rewrite Hentry.
Qed.

(** C5. The linearity diagnostic.  The ratio is
    [(f(operating point) - f(low)) / (f(high) - f(operating point))]; when
    that denominator is zero the ratio is [1] and nothing is raised.  The
    diagnostic always ends normally and leaves the heap and the call log as
    they were: it prints one line when [round(ratio, 5) != 1] and nothing
    otherwise.  The mapping returned by the call is the one computed
    without any reference to the ratio. *)
Theorem C5_linearity_diagnostic (normal_operating_point : num)
    (results : list num) (results_0 results_1 : num) parameter s :
  results !! 0%nat = Some results_0 →
  results !! 1%nat = Some results_1 →
  (num_eqb (results_1 - normal_operating_point) (num_lit 0) = true →
     linearity_ratio normal_operating_point results s
     = (Return (num_lit 1), s))
  ∧ (num_eqb (results_1 - normal_operating_point) (num_lit 0) = false →
     linearity_ratio normal_operating_point results s
     = (Return (num_div (normal_operating_point - results_0)
                        (results_1 - normal_operating_point)), s))
  ∧ (∃ ratio,
       linearity_ratio normal_operating_point results s = (Return ratio, s)
       ∧ linearity_diagnostic normal_operating_point results parameter s
         = (Return tt,
            mkState (heap s)
              (stdout s ++
                 if num_eqb (np_round ratio 5) (num_lit 1) then []
                 else [not_linear_message parameter ratio])
              (calls s)))
  ∧ (∀ (parameter_values : loc) d
       (interval_width : width_policy num)
       (differentiation_interval_values : option (gmap string (list num))),
       heap s !! parameter_values = Some d →
       (get_sensitivities_numerical function parameter_values interval_width
          differentiation_interval_values s).1
       = sensitivities_of function d interval_width
           differentiation_interval_values).
Proof.
  intros H0 H1.
  pose proof (linearity_ratio_run normal_operating_point results results_0
                results_1 s H0 H1) as Hratio.
  pose proof (linearity_diagnostic_run normal_operating_point results
                results_0 results_1 parameter s H0 H1) as Hdiag.
  unfold ratio_of in Hratio. split_and!.
  - intros Hz. by rewrite Hz in Hratio.
  - intros Hz. by rewrite Hz in Hratio.
  - eexists. split; [exact Hratio | exact Hdiag].
  - intros parameter_values d interval_width differentiation_interval_values Hd.
    by destruct (get_sensitivities_numerical_run function parameter_values d
                   interval_width differentiation_interval_values s Hd)
      as (s' & -> & _).
Qed.

(** C10. The call, whether it returns or raises, leaves the caller's
    [parameter_values] as it was, and every other dictionary that existed
    before the call: the perturbed values only go into new copies. *)
Theorem C10_parameter_values_not_mutated (parameter_values : loc)
    (interval_width : width_policy num)
    (differentiation_interval_values : option (gmap string (list num)))
    s (outcome : result (dict (sensitivity num))) s' :
  get_sensitivities_numerical function parameter_values interval_width
    differentiation_interval_values s = (outcome, s') →
  ∀ (l : loc) (items : dict num),
    heap s !! l = Some items → heap s' !! l = Some items.
Proof.
  intros Hrun l items Hl.
  pose proof (get_sensitivities_numerical_frame function parameter_values
                interval_width differentiation_interval_values s) as Hf.
  rewrite Hrun in Hf. by eapply frame_lookup.
Qed.

End NumericalClaims.

(** ** The numerical engine on the demo function [f2] *)

Section NumericalExamples.
Import QNum.

Lemma demo_keys_distinct : NoDup (dict_keys demo_parameter_values).
Proof. apply (bool_decide_unpack _). vm_compute. exact I. Qed.

(** C1. An exception raised by the function at a perturbed value is not
    wrapped in the [ValueError] the docstring announces: whatever the
    function and its exception are, the only exception that leaves lines
    140-150 is the [NameError] of the unbound name [Error] in
    [except Error as e].  So for [f2], which divides by [z], and the explicit
    interval [[0, 6]] for [z]: the evaluation at [z = 0] raises
    [ZeroDivisionError] and the call ends in that [NameError]. *)
Theorem C1_evaluation_failure_raises_NameError :
  (∀ (function : list Q → result Q) (parameter_values : loc) (d : dict Q)
     (parameter : string) (values results : list Q) (s : state Q) (e : exn),
     heap s !! parameter_values = Some d →
     (evaluate_interval function parameter_values parameter values results s).1
     = Raise e →
     e = NameError "name 'Error' is not defined")
  ∧ f2 (perturbed demo_parameter_values "z" 0%Q)
    = Raise (ZeroDivisionError "division by zero")
  ∧ (get_sensitivities_numerical f2 1%positive default_interval_width
       (Some {[ "z" := [0%Q; 6%Q] ]}) demo_state).1
    = Raise (NameError "name 'Error' is not defined").
Proof.
split_and!.
- intros function parameter_values d parameter values results s e Hd Hrun.
  destruct (evaluate_interval_run function parameter_values d parameter
              values results s Hd) as (s' & Heq & _).
  rewrite Heq in Hrun. by apply evaluated_Raise in Hrun.
- vm_compute. reflexivity.
- vm_compute. reflexivity.
Qed.

Lemma C2_sensitivity_formulas_witness :
  ∃ sensitivities s',
    get_sensitivities_numerical f2 1%positive default_interval_width None demo_state
    = (Return sensitivities, s')
    ∧ ∃ normal_operating_point,
        f2 (dict_values demo_parameter_values) = Return normal_operating_point
        ∧ calls s' = calls demo_state ++ dict_values demo_parameter_values ::
            perturbed_calls demo_parameter_values default_interval_width None
              demo_parameter_values
        ∧ ∀ parameter (normal_value : Q),
            (parameter, normal_value) ∈ demo_parameter_values →
            ∃ low high rest f_low f_high,
              Spec.resolve_interval default_interval_width None parameter
                normal_value = Some (low :: high :: rest)
              ∧ f2 (perturbed demo_parameter_values parameter low) = Return f_low
              ∧ f2 (perturbed demo_parameter_values parameter high) = Return f_high
              ∧ let absolute := ((f_high - f_low) / (high - low))%Q in
                let relative := (absolute * normal_value / normal_operating_point)%Q in
                assoc parameter sensitivities
                = Some (mkSensitivity (round absolute 0) (round relative 2)).
Proof.
  pose (run := get_sensitivities_numerical f2 1%positive
                 default_interval_width None demo_state).
  exists (match run.1 with Return x => x | Raise _ => [] end), run.2.
  split; [vm_compute; reflexivity|].
  refine (C2_sensitivity_formulas f2 1%positive demo_parameter_values
            default_interval_width None demo_state _ run.2 _ _ _).
  - reflexivity.
  - exact demo_keys_distinct.
  - vm_compute. reflexivity.
Defined.

Lemma C3_interval_resolution_witness :
  let widths : gmap string Q := {[ "x" := 1 # 10; "default" := 2 # 10 ]} in
  let intervals : gmap string (list Q) := {[ "z" := [0%Q; 6%Q]; "w" := [] ]} in
  differentiation_interval (WidthDict widths) (Some intervals) "z" 3%Q demo_state
  = (Return [0%Q; 6%Q], demo_state)
  ∧ differentiation_interval (WidthDict widths) (Some intervals) "x" 1%Q demo_state
    = (Return [(1 * (1 - (1 # 10)))%Q; (1 * (1 + (1 # 10)))%Q], demo_state)
  ∧ differentiation_interval (WidthDict widths) (Some intervals) "w" 4%Q demo_state
    = (Return [(4 * (1 - (2 # 10)))%Q; (4 * (1 + (2 # 10)))%Q], demo_state)
  ∧ differentiation_interval (WidthFloat (5 # 100)) None "y" 2%Q demo_state
    = (Return [(2 * (1 - (5 # 100)))%Q; (2 * (1 + (5 # 100)))%Q], demo_state).
Proof.
  intros widths intervals. split_and!.
  - refine (proj1 (C3_interval_resolution (WidthDict widths) (Some intervals)
                     "z" 3%Q demo_state) intervals 0%Q [6%Q] _ _);
      reflexivity.
  - refine (proj1 (proj1 (proj2 (C3_interval_resolution (WidthDict widths)
                     (Some intervals) "x" 1%Q demo_state)) _) widths (1 # 10) _ _);
      reflexivity.
  - refine (proj1 (proj2 (proj1 (proj2 (C3_interval_resolution (WidthDict widths)
                     (Some intervals) "w" 4%Q demo_state)) _)) widths (2 # 10) _ _ _);
      reflexivity.
  - refine (proj2 (proj2 (proj1 (proj2 (C3_interval_resolution
                     (WidthFloat (5 # 100)) None "y" 2%Q demo_state)) _))
              (5 # 100) _);
      reflexivity.
Defined.

Lemma C4_missing_width_is_fatal_witness :
  (get_sensitivities_numerical f2 1%positive (WidthDict {[ "x" := 1 # 10 ]})
     None demo_state).1
  = Raise (ValueError (missing_interval_message "y")).
Proof.
  refine (proj2 (C4_missing_width_is_fatal f2 1%positive [("x", 1%Q)]
                   [("z", 3%Q); ("w", 4%Q)] "y" 2%Q {[ "x" := 1 # 10 ]} None
                   demo_state _ _ _ _) (160 # 3) _ _).
  - reflexivity.
  - reflexivity.
  - reflexivity.
  - reflexivity.
  - vm_compute. reflexivity.
  - intros q w Hin. apply list_elem_of_singleton in Hin. injection Hin as -> ->.
    vm_compute. exact I.
Defined.

Lemma C5_linearity_diagnostic_witness :
  linearity_ratio 12%Q [10%Q; 12%Q] demo_state = (Return 1%Q, demo_state)
  ∧ linearity_ratio 12%Q [10%Q; 16%Q] demo_state
    = (Return ((12 - 10) / (16 - 12))%Q, demo_state).
Proof.
  split.
  - refine (proj1 (C5_linearity_diagnostic f2 12%Q [10%Q; 12%Q] 10%Q 12%Q "x"
                     demo_state _ _) _); reflexivity.
  - refine (proj1 (proj2 (C5_linearity_diagnostic f2 12%Q [10%Q; 16%Q] 10%Q
                     16%Q "x" demo_state _ _)) _); reflexivity.
Defined.

Lemma C10_parameter_values_not_mutated_witness :
  heap (get_sensitivities_numerical f2 1%positive default_interval_width None
          demo_state).2 !! 1%positive = Some demo_parameter_values
  ∧ heap (get_sensitivities_numerical f2 1%positive default_interval_width
            (Some {[ "z" := [0%Q; 6%Q] ]}) demo_state).2 !! 1%positive
    = Some demo_parameter_values.
Proof.
  split.
  - refine (C10_parameter_values_not_mutated f2 1%positive
              default_interval_width None demo_state _ _ _ 1%positive
              demo_parameter_values _); [apply surjective_pairing | reflexivity].
  - refine (C10_parameter_values_not_mutated f2 1%positive
              default_interval_width (Some {[ "z" := [0%Q; 6%Q] ]}) demo_state
              _ _ _ 1%positive demo_parameter_values _);
      [apply surjective_pairing | reflexivity].
Defined.

End NumericalExamples.

(** ** Rounding of exact rationals *)

Section QRounding.
Import QNum.
Local Open Scope Q_scope.

Lemma round_half_even_nearest (x : Q) :
  Qabs (x - inject_Z (round_half_even x)) <= 1 # 2.
Proof.
  unfold round_half_even.
  pose proof (Qfloor_le x) as Hle. pose proof (Qlt_floor x) as Hlt.
  rewrite inject_Z_plus in Hlt.
  assert (inject_Z 1 == 1) as H1 by reflexivity. rewrite H1 in Hlt.
  apply Qabs_Qle_condition.
  destruct (Qcompare_spec (x - inject_Z (Qfloor x)) (1 # 2)) as [He|Hc|Hc].
  - destruct (Z.even (Qfloor x)).
    + split; Lqa.lra.
    + rewrite inject_Z_plus, H1. split; Lqa.lra.
  - split; Lqa.lra.
  - rewrite inject_Z_plus, H1. split; Lqa.lra.
Qed.

Lemma round_0 (x : Q) :
  round x 0 == inject_Z (round_half_even (x * scale 0))
  ∧ Qabs (x - round x 0) <= 1 # 2.
Proof.
  assert (round x 0 == inject_Z (round_half_even (x * scale 0))) as Heq.
  { unfold round. change (scale 0) with 1. field. }
  split; [exact Heq|]. rewrite Heq.
  pose proof (round_half_even_nearest (x * scale 0)) as Hn.
  change (scale 0) with 1 in *.
  assert (x * 1 == x) as Hx by ring. rewrite Hx in Hn at 1. exact Hn.
Qed.

Lemma round_2 (x : Q) :
  round x 2 == inject_Z (round_half_even (x * scale 2)) / 100
  ∧ Qabs (x - round x 2) <= 1 # 200.
Proof.
  split; [reflexivity|].
  pose proof (round_half_even_nearest (x * scale 2)) as Hn.
  unfold round. change (scale 2) with 100 in *.
  set (n := inject_Z (round_half_even (x * 100))) in *.
  apply Qabs_Qle_condition in Hn as [Hl Hu].
  apply Qabs_Qle_condition.
  assert (n / 100 == n * (1 # 100)) as -> by (field).
  split; Lqa.lra.
Qed.

(** The example of the specification: [0.6666...] becomes [0.67]. *)
Example round_two_thirds : round (2 # 3) 2 = 67 # 100.
Proof. reflexivity. Qed.

End QRounding.

Section RoundingClaim.
Import QNum.
Variable function : list Q → result Q.
Local Open Scope Q_scope.

(** C7. Every entry a successful call returns is rounded: with [absolute]
    and [relative] the values computed for the parameter, the absolute
    sensitivity returned is an integer at distance at most [1/2] from
    [absolute] (the nearest integer), and the relative sensitivity returned
    is a multiple of [1/100] at distance at most [1/200] from [relative]
    (two decimal places). *)
Theorem C7_results_are_rounded (parameter_values : loc) (d : dict Q)
    (interval_width : width_policy Q)
    (differentiation_interval_values : option (gmap string (list Q)))
    (s : state Q) (sensitivities : dict (sensitivity Q)) (s' : state Q) :
  heap s !! parameter_values = Some d →
  get_sensitivities_numerical function parameter_values interval_width
    differentiation_interval_values s = (Return sensitivities, s') →
  ∀ (parameter : string) (entry : sensitivity Q),
    (parameter, entry) ∈ sensitivities →
    ∃ (normal_value normal_operating_point low high : Q) (rest : list Q)
      (f_low f_high : Q) (n k : Z),
      (parameter, normal_value) ∈ d
      ∧ function (dict_values d) = Return normal_operating_point
      ∧ Spec.resolve_interval interval_width differentiation_interval_values
          parameter normal_value = Some (low :: high :: rest)
      ∧ function (perturbed d parameter low) = Return f_low
      ∧ function (perturbed d parameter high) = Return f_high
      ∧ let absolute := (f_high - f_low) / (high - low) in
        let relative := absolute * normal_value / normal_operating_point in
        absolute_sensitivity entry == inject_Z n
        ∧ Qabs (absolute - absolute_sensitivity entry) <= 1 # 2
        ∧ relative_sensitivity entry == inject_Z k / 100
        ∧ Qabs (relative - relative_sensitivity entry) <= 1 # 200.
Proof.
  intros Hd Hrun parameter entry Hin.
  destruct (get_sensitivities_numerical_run function parameter_values d
              interval_width differentiation_interval_values s Hd)
    as (s1 & Heq & _ & _).
  rewrite Hrun in Heq. injection Heq as Hres _.
  unfold sensitivities_of in Hres.
  destruct (function (dict_values d)) as [normal_operating_point|e]; [|done].
  cbn in Hres. symmetry in Hres.
  destruct (entries_of_Return function _ _ _ _ _ _ _ Hres) as (Hfrom & _).
  destruct (Hfrom _ _ Hin) as [Hnil|(normal_value & Hinv & Hentry)];
    [by apply elem_of_nil in Hnil|].
  apply entry_of_Return in Hentry
    as (low & high & rest & f_low & f_high & Hint & Hlow & Hhigh & _ & _ & ->).
  exists normal_value, normal_operating_point, low, high, rest, f_low, f_high.
  eexists _, _. split_and!; try done.
  cbv zeta. cbn [absolute_sensitivity relative_sensitivity]. split_and!.
  - exact (proj1 (round_0 _)).
  - exact (proj2 (round_0 _)).
  - exact (proj1 (round_2 _)).
  - exact (proj2 (round_2 _)).
Qed.

End RoundingClaim.

Section RoundingExample.
Import QNum.

Lemma C7_results_are_rounded_witness :
∃ (normal_value normal_operating_point low high : Q) (rest : list Q)
  (f_low f_high : Q) (n k : Z),
  ("y", normal_value) ∈ QNum.demo_parameter_values
  ∧ QNum.f2 (dict_values QNum.demo_parameter_values) = Return normal_operating_point
  ∧ Spec.resolve_interval default_interval_width None "y" normal_value
    = Some (low :: high :: rest)
  ∧ QNum.f2 (perturbed QNum.demo_parameter_values "y" low) = Return f_low
  ∧ QNum.f2 (perturbed QNum.demo_parameter_values "y" high) = Return f_high
  ∧ let absolute := ((f_high - f_low) / (high - low))%Q in
    let relative := (absolute * normal_value / normal_operating_point)%Q in
    (16 == inject_Z n)%Q
    ∧ (Qabs (absolute - 16) <= 1 # 2)%Q
    ∧ (60 # 100 == inject_Z k / 100)%Q
    ∧ (Qabs (relative - (60 # 100)) <= 1 # 200)%Q.
Proof.
pose (run := get_sensitivities_numerical QNum.f2 1%positive
               default_interval_width None QNum.demo_state).
refine (C7_results_are_rounded QNum.f2 1%positive QNum.demo_parameter_values
          default_interval_width None QNum.demo_state
          (match run.1 with Return x => x | Raise _ => [] end) run.2 _ _
          "y" (mkSensitivity 16%Q (60 # 100)%Q) _).
- reflexivity.
- vm_compute. reflexivity.
- vm_compute. apply list_elem_of_In. right. left. reflexivity.
Defined.

End RoundingExample.

(** ** The symbolic engine *)

Section SymbolicClaims.
Import Sympy.
Variable function : list expr → result expr.





Lemma for_symbols_keys (all_parameters : list string)
    (parameter_values : gmap string Q) (parameters : list string)
    (sensitivities0 sensitivities : dict (sensitivity expr)) :
  for_symbols function all_parameters parameter_values parameters
    sensitivities0 = Return sensitivities →
  NoDup parameters →
  (∀ parameter, parameter ∈ parameters →
     parameter ∉@{list string} dict_keys sensitivities0) →
  dict_keys sensitivities = dict_keys sensitivities0 ++ parameters.
Proof.
  revert sensitivities0.
  induction parameters as [|p parameters IH]; intros sensitivities0 Hrun Hnd Hfresh.
  - injection Hrun as <-. by rewrite app_nil_r.
  - cbn [for_symbols] in Hrun.
    destruct (get_sensitivity_for_parameter function all_parameters
                parameter_values p) as [entry|e]; [|done].
    cbn in Hrun. apply NoDup_cons in Hnd as [Hp Hnd].
    assert (p ∉@{list string} dict_keys sensitivities0) as Hp0
      by (apply Hfresh; by left).
    rewrite (IH _ Hrun Hnd).
    + rewrite (dict_keys_set_notin _ _ _ Hp0). by rewrite <- app_assoc.
    + intros parameter Hin. rewrite (dict_keys_set_notin _ _ _ Hp0).
      intros [Hin0|Hin1]%elem_of_app.
      * revert Hin0. apply Hfresh. by right.
      * apply list_elem_of_singleton in Hin1. by subst.
Qed.

End SymbolicClaims.


(** ** The order of the result *)

(** C9. On a successful call the keys of the result are the parameter names
    in the order of the input: the keys of [parameter_values] for the
    numerical engine, the list [parameters] for the symbolic engine (whose
    names are distinct, as the keys of a dictionary are). *)
Theorem C9_result_keeps_parameter_order :
  (∀ (num : Type) (PyNum_num : PyNum num) (function : list num → result num)
     (parameter_values : loc) (d : dict num)
     (interval_width : width_policy num)
     (differentiation_interval_values : option (gmap string (list num)))
     (s : state num) (sensitivities : dict (sensitivity num)) (s' : state num),
     heap s !! parameter_values = Some d →
     NoDup (dict_keys d) →
     get_sensitivities_numerical function parameter_values interval_width
       differentiation_interval_values s = (Return sensitivities, s') →
     dict_keys sensitivities = dict_keys d)
  ∧ (∀ (function : list Sympy.expr → result Sympy.expr)
       (parameters : list string) (parameter_values : gmap string Q)
       (sensitivities : dict (sensitivity Sympy.expr)),
       NoDup parameters →
       get_sensitivities function parameters parameter_values
       = Return sensitivities →
       dict_keys sensitivities = parameters).
Proof.
  split.
  - intros num PyNum_num function parameter_values d interval_width
      differentiation_interval_values s sensitivities s' Hd Hnd Hrun.
    destruct (get_sensitivities_numerical_run function parameter_values d
                interval_width differentiation_interval_values s Hd)
      as (s1 & Heq & _ & _).
    rewrite Hrun in Heq. injection Heq as Hres _.
    unfold sensitivities_of in Hres.
    destruct (function (dict_values d)) as [normal_operating_point|e]; [|done].
    cbn in Hres. symmetry in Hres.
    destruct (entries_of_Return function _ _ _ _ _ _ _ Hres) as (_ & _ & Hdistinct).
    destruct (Hdistinct Hnd) as [_ Hkeys]. rewrite Hkeys; [done|].
    intros parameter _ Hin. by apply elem_of_nil in Hin.
  - intros function parameters parameter_values sensitivities Hnd Hrun.
    rewrite (for_symbols_keys function _ _ _ _ _ Hrun Hnd); [done|].
    intros parameter _ Hin. by apply elem_of_nil in Hin.
Qed.

Section OrderExample.
Import QNum.

Lemma C9_result_keeps_parameter_order_witness :
(∃ sensitivities s',
   get_sensitivities_numerical QNum.f2 1%positive default_interval_width None
     QNum.demo_state = (Return sensitivities, s')
   ∧ dict_keys sensitivities = ["x"; "y"; "z"; "w"])
∧ (∃ sensitivities,
     get_sensitivities symbolic_test_function demo_symbols demo_symbol_values
     = Return sensitivities
     ∧ dict_keys sensitivities = ["x"; "y"; "z"; "w"]).
Proof.
split.
- pose (run := get_sensitivities_numerical QNum.f2 1%positive
                 default_interval_width None QNum.demo_state).
  exists (match run.1 with Return x => x | Raise _ => [] end), run.2.
  split; [vm_compute; reflexivity|].
  refine (proj1 C9_result_keeps_parameter_order Q QNum.Q_PyNum QNum.f2
            1%positive QNum.demo_parameter_values default_interval_width None
            QNum.demo_state _ run.2 _ _ _).
  + reflexivity.
  + exact demo_keys_distinct.
  + vm_compute. reflexivity.
- pose (run := get_sensitivities symbolic_test_function demo_symbols
                 demo_symbol_values).
  exists (match run with Return x => x | Raise _ => [] end).
  split; [vm_compute; reflexivity|].
  refine (proj2 C9_result_keeps_parameter_order symbolic_test_function
            demo_symbols demo_symbol_values _ _ _).
  + apply (bool_decide_unpack _). vm_compute. exact I.
  + vm_compute. reflexivity.
Defined.

End OrderExample.

(** ** The demo function: numerical against symbolic *)

Section ForwardReading.
Context {num : Type} `{PyNum num}.
Variable function : list num → result num.
Local Open Scope py_scope.

(** The entry of a parameter whose interval has two values at which the
    function returns. *)
Lemma entry_of_two_values (d : dict num) (normal_operating_point : num)
    (interval_width : width_policy num)
    (differentiation_interval_values : option (gmap string (list num)))
    (parameter : string) (normal_value low high f_low f_high : num) :
  Spec.resolve_interval interval_width differentiation_interval_values
    parameter normal_value = Some [low; high] →
  function (perturbed d parameter low) = Return f_low →
  function (perturbed d parameter high) = Return f_high →
  num_eqb (high - low) (num_lit 0) = false →
  num_eqb normal_operating_point (num_lit 0) = false →
  entry_of function d normal_operating_point interval_width
    differentiation_interval_values parameter normal_value
  = Return
      (let absolute := num_div (f_high - f_low) (high - low) in
       let relative :=
         num_div (absolute * normal_value) normal_operating_point in
       mkSensitivity (np_round absolute 0) (np_round relative 2)).
Proof.
  intros Hint Hlow Hhigh Hwidth Hnop. unfold entry_of, resolved.
  rewrite Hint. cbv [mbind result_bind mret result_ret].
  cbn [evaluated]. rewrite Hlow. cbn [evaluated app]. rewrite Hhigh.
  cbn [evaluated app]. unfold item. cbn [lookup list_lookup].
  unfold quotient. by rewrite Hwidth, Hnop.
Qed.

Lemma entries_of_four (d : dict num) (normal_operating_point : num)
    (interval_width : width_policy num)
    (differentiation_interval_values : option (gmap string (list num)))
    (vx vy vz vw : num) (ex ey ez ew : sensitivity num) :
  entry_of function d normal_operating_point interval_width
    differentiation_interval_values "x" vx = Return ex →
  entry_of function d normal_operating_point interval_width
    differentiation_interval_values "y" vy = Return ey →
  entry_of function d normal_operating_point interval_width
    differentiation_interval_values "z" vz = Return ez →
  entry_of function d normal_operating_point interval_width
    differentiation_interval_values "w" vw = Return ew →
  entries_of function d normal_operating_point interval_width
    differentiation_interval_values
    [("x", vx); ("y", vy); ("z", vz); ("w", vw)] []
  = Return [("x", ex); ("y", ey); ("z", ez); ("w", ew)].
Proof.
  intros Hx Hy Hz Hw. cbn [entries_of]. rewrite Hx.
  cbv [mbind result_bind]. cbn [entries_of]. rewrite Hy.
  cbn [entries_of]. rewrite Hz. cbn [entries_of]. by rewrite Hw.
Qed.

End ForwardReading.

Section RealRounding.
Import RNum.
Local Open Scope R_scope.

Lemma floor_bounds (x : R) : IZR (floor x) <= x < IZR (floor x) + 1.
Proof.
  unfold floor. rewrite minus_IZR. destruct (archimed x) as [Hgt Hle].
  split; Lra.lra.
Qed.

Lemma round_half_even_unique (x : R) (n : Z) :
  IZR n - 1 / 2 < x < IZR n + 1 / 2 → round_half_even x = n.
Proof.
  intros [Hlo Hhi]. unfold round_half_even.
  destruct (floor_bounds x) as [Hfl Hfu]. set (f := floor x) in *.
  assert (f = n ∨ f = (n - 1)%Z) as [->| ->].
  { assert (f < n + 1)%Z.
    { apply lt_IZR. rewrite plus_IZR. Lra.lra. }
    assert (n - 2 < f)%Z.
    { apply lt_IZR. rewrite minus_IZR. Lra.lra. }
    lia. }
  - destruct (Rlt_dec (x - IZR n) (1 / 2)); [done | Lra.lra].
  - rewrite minus_IZR in *.
    destruct (Rlt_dec (x - (IZR n - 1)) (1 / 2)); [Lra.lra|].
    destruct (Rlt_dec (1 / 2) (x - (IZR n - 1))); [lia | Lra.lra].
Qed.

Lemma round_0_unique (x : R) (n : Z) :
  IZR n - 1 / 2 < x < IZR n + 1 / 2 → round x 0 = IZR n.
Proof.
  intros Hx. unfold round. change (scale 0) with 1.
  rewrite (round_half_even_unique (x * 1) n); [Lra.lra | Lra.lra].
Qed.

Lemma eqb_false (a b : R) : a ≠ b → eqb a b = false.
Proof. intros Hne. unfold eqb. by destruct (Req_dec_T a b). Qed.

Lemma Rpower_one (z : R) : Rpower 1 z = 1.
Proof. unfold Rpower. rewrite ln_1, Rmult_0_r. apply exp_0. Qed.

Lemma Rpower_cube (x : R) : 0 < x → Rpower x 3 = x * x * x.
Proof.
  intros Hx. replace 3 with (INR 3) by (simpl; Lra.lra).
  rewrite Rpower_pow by done. simpl. Lra.lra.
Qed.

End RealRounding.

Section DemoAgreement.
Import RNum.
Local Open Scope R_scope.

Lemma Q2R_one : Q2R 1 = 1.
Proof. unfold Q2R. simpl. Lra.lra. Qed.

Lemma Q2R_default_width : Q2R (5 # 100) = 5 / 100.
Proof. unfold Q2R. simpl. Lra.lra. Qed.

Lemma Q2R_zero : Q2R 0 = 0.
Proof. unfold Q2R. simpl. Lra.lra. Qed.

Lemma demo_operating_point :
  test_function (dict_values demo_parameter_values) = Return 12.
Proof.
  cbn [dict_values map snd demo_parameter_values test_function].
  rewrite Rpower_one. f_equal. Lra.lra.
Qed.

Lemma twelve_is_not_zero : num_eqb 12 (num_lit 0) = false.
Proof. apply eqb_false. cbn [num_lit R_PyNum]. rewrite Q2R_zero. Lra.lra. Qed.

(** The entry of a parameter of the demo under the default width: what is
    left is the bound on the finite difference. *)
Ltac demo_entry name value :=
  eexists;
  erewrite (entry_of_two_values test_function demo_parameter_values 12
              default_interval_width None name value
              (value * (Q2R 1 - Q2R (5 # 100)))
              (value * (Q2R 1 + Q2R (5 # 100))));
  [ | reflexivity | reflexivity | reflexivity
    | apply eqb_false; cbn [num_lit num_sub R_PyNum];
      rewrite Q2R_one, Q2R_default_width, Q2R_zero; Lra.lra
    | exact twelve_is_not_zero ];
  cbv zeta; do 2 f_equal;
  cbn [snd np_round num_div num_sub R_PyNum];
  apply round_0_unique;
  rewrite Q2R_one, Q2R_default_width, ?Rpower_one;
  rewrite ?Rpower_cube by Lra.lra.

Ltac finite_difference_is c :=
  match goal with
  | |- _ < ?e < _ => replace e with c by (field; Lra.lra)
  end;
  Lra.lra.

Lemma demo_entry_x :
  ∃ relative,
    entry_of test_function demo_parameter_values 12 default_interval_width
      None "x" 1 = Return (mkSensitivity 20 relative).
Proof. demo_entry "x" 1. finite_difference_is (2001 / 100). Qed.

Lemma demo_entry_y :
  ∃ relative,
    entry_of test_function demo_parameter_values 12 default_interval_width
      None "y" 2 = Return (mkSensitivity 4 relative).
Proof. demo_entry "y" 2. finite_difference_is 4. Qed.

Lemma demo_entry_z :
  ∃ relative,
    entry_of test_function demo_parameter_values 12 default_interval_width
      None "z" 3 = Return (mkSensitivity 0 relative).
Proof. demo_entry "z" 3. finite_difference_is 0. Qed.

Lemma demo_entry_w :
  ∃ relative,
    entry_of test_function demo_parameter_values 12 default_interval_width
      None "w" 4 = Return (mkSensitivity 3 relative).
Proof. demo_entry "w" 4. finite_difference_is 3. Qed.

(** C6. For [(x * y + x**z) * w] at [x = 1, y = 2, z = 3, w = 4] with the
    default width, both engines return, and for each of the four
    parameters the absolute sensitivity of the numerical engine, which is
    rounded to an integer, is the exact derivative the symbolic engine
    gives: [20], [4], [0] and [3]. *)
Theorem C6_numerical_agrees_with_symbolic :
  ∃ (numerical : dict (sensitivity R))
    (symbolic : dict (sensitivity Sympy.expr)),
    (get_sensitivities_numerical test_function 1%positive
       default_interval_width None (state_with demo_parameter_values)).1
    = Return numerical
    ∧ get_sensitivities symbolic_test_function demo_symbols demo_symbol_values
      = Return symbolic
    ∧ absolute_of <$> numerical = [("x", 20); ("y", 4); ("z", 0); ("w", 3)]
    ∧ absolute_of <$> symbolic
      = [("x", Sympy.Num 20); ("y", Sympy.Num 4); ("z", Sympy.Num 0);
         ("w", Sympy.Num 3)]
    ∧ Forall2
        (λ n s, n.1 = s.1
                ∧ ∃ q : Q, absolute_sensitivity s.2 = Sympy.Num q
                         ∧ absolute_sensitivity n.2 = Q2R q)
        numerical symbolic.
Proof.
  destruct demo_entry_x as [rx Hx], demo_entry_y as [ry Hy],
    demo_entry_z as [rz Hz], demo_entry_w as [rw Hw].
  destruct (get_sensitivities_numerical_run test_function 1%positive
              demo_parameter_values default_interval_width None
              (state_with demo_parameter_values) eq_refl) as (s' & -> & _).
  exists [("x", mkSensitivity 20 rx); ("y", mkSensitivity 4 ry);
          ("z", mkSensitivity 0 rz); ("w", mkSensitivity 3 rw)].
  eexists. split_and!.
  - cbn [fst]. unfold sensitivities_of. rewrite demo_operating_point.
    cbv [mbind result_bind].
    exact (entries_of_four test_function demo_parameter_values 12
             default_interval_width None 1 2 3 4 _ _ _ _ Hx Hy Hz Hw).
  - vm_compute. reflexivity.
  - reflexivity.
  - reflexivity.
  - repeat constructor; cbn [snd absolute_sensitivity]; eexists;
      (split; [reflexivity|]); unfold Q2R; simpl; Lra.lra.
Qed.

End DemoAgreement.

(** ** How the numerical engine fails *)

(** A computation that has raised does not return. *)
Ltac raised := let Hr := fresh "Hr" in intros Hr; exact Hr.

Section NumericalFailures.
Context {num : Type} `{PyNum num}.
Variable function : list num → result num.
Local Open Scope py_scope.

Implicit Types (s : state num) (d items : dict num) (parameter : string).

(** A failing parameter makes the loop fail. *)
Lemma entries_of_some_Raise d (normal_operating_point : num)
    (interval_width : width_policy num)
    (differentiation_interval_values : option (gmap string (list num)))
    items (sensitivities : dict (sensitivity num)) parameter (normal_value : num) :
  (parameter, normal_value) ∈ items →
  ¬ is_Return (entry_of function d normal_operating_point interval_width
                 differentiation_interval_values parameter normal_value) →
  ¬ is_Return (entries_of function d normal_operating_point interval_width
                 differentiation_interval_values items sensitivities).
Proof.
revert sensitivities.
induction items as [|[p v] items IH]; intros sensitivities Hin Hfail.
- by apply elem_of_nil in Hin.
- cbn [entries_of].
  destruct (entry_of function d normal_operating_point interval_width
              differentiation_interval_values p v) as [entry|e] eqn:Hentry;
    [|by intros []].
  cbn. apply elem_of_cons in Hin as [Heq|Hin].
  + injection Heq as -> ->. rewrite Hentry in Hfail. by destruct Hfail.
  + by apply IH.
Qed.

(** The loop fails with the exception of its first failing parameter. *)
Lemma entries_of_first_Raise d (normal_operating_point : num)
    (interval_width : width_policy num)
    (differentiation_interval_values : option (gmap string (list num)))
    (before after : dict num) parameter (normal_value : num) (e : exn) :
  (∀ q w, (q, w) ∈ before →
     is_Return (entry_of function d normal_operating_point interval_width
                  differentiation_interval_values q w)) →
  entry_of function d normal_operating_point interval_width
    differentiation_interval_values parameter normal_value = Raise e →
  entries_of function d normal_operating_point interval_width
    differentiation_interval_values
    (before ++ (parameter, normal_value) :: after) [] = Raise e.
Proof.
intros Hbefore Hentry. rewrite entries_of_app.
pose proof (entries_of_all_Return function d normal_operating_point
              interval_width differentiation_interval_values before []
              Hbefore) as Hret.
destruct (entries_of function d normal_operating_point interval_width
            differentiation_interval_values before []) as [sens|e']; [|done].
cbn. by rewrite Hentry.
Qed.




(** X1. When the function raises at the operating point (line 112, outside
    every [try]), the call raises that very exception: it is not wrapped,
    no perturbed call is made, nothing is printed and no dictionary is
    created. *)
Theorem X1_operating_point_failure_propagates (parameter_values : loc) d
    (interval_width : width_policy num)
    (differentiation_interval_values : option (gmap string (list num)))
    s (e : exn) :
  heap s !! parameter_values = Some d →
  function (dict_values d) = Raise e →
  get_sensitivities_numerical function parameter_values interval_width
    differentiation_interval_values s
  = (Raise e, mkState (heap s) (stdout s) (calls s ++ [dict_values d])).
Proof.
intros Hd Hf.
unfold get_sensitivities_numerical, dict_values_of, dict_items_of.
cbv [mbind M_bind bind mret M_ret ret call]. rewrite Hd.
cbn [heap stdout calls]. by rewrite Hf.
Qed.


(** X3. An explicit interval with a single value: the function is evaluated
    at that value, and then [results[1]] fails.  When the operating point and
    the parameters before are evaluated without error the call raises
    [IndexError]. *)
Theorem X3_single_value_interval (parameter_values : loc)
    (before after : dict num) parameter (normal_value value r : num)
    (interval_width : width_policy num) (intervals : gmap string (list num))
    s (normal_operating_point : num) :
  let d := before ++ (parameter, normal_value) :: after in
  heap s !! parameter_values = Some d →
  function (dict_values d) = Return normal_operating_point →
  (∀ q w, (q, w) ∈ before →
     is_Return (entry_of function d normal_operating_point interval_width
                  (Some intervals) q w)) →
  intervals !! parameter = Some [value] →
  function (perturbed d parameter value) = Return r →
  (get_sensitivities_numerical function parameter_values interval_width
     (Some intervals) s).1 = Raise (IndexError "list index out of range").
Proof.
intros d Hd Hf Hbefore Hint Hvalue.
destruct (get_sensitivities_numerical_run function parameter_values d
            interval_width (Some intervals) s Hd) as (s' & -> & _).
cbn [fst]. unfold sensitivities_of. rewrite Hf. cbn.
apply entries_of_first_Raise; [done|].
unfold entry_of, resolved, Spec.resolve_interval, Spec.supplied_interval.
rewrite Hint. cbn. by rewrite Hvalue.
Qed.

(** X4. An interval of width zero is fatal: when the interval of some
    parameter has [high - low == 0], the call returns no mapping, whatever
    the other parameters are. *)
Theorem X4_zero_width_is_fatal (parameter_values : loc) d
    (interval_width : width_policy num)
    (differentiation_interval_values : option (gmap string (list num)))
    s parameter (normal_value low high : num) (rest : list num) :
  heap s !! parameter_values = Some d →
  (parameter, normal_value) ∈ d →
  Spec.resolve_interval interval_width differentiation_interval_values
    parameter normal_value = Some (low :: high :: rest) →
  num_eqb (high - low) (num_lit 0) = true →
  ∃ e, (get_sensitivities_numerical function parameter_values interval_width
          differentiation_interval_values s).1 = Raise e.
Proof.
intros Hd Hin Hint Hwidth.
destruct (get_sensitivities_numerical_run function parameter_values d
            interval_width differentiation_interval_values s Hd)
  as (s' & -> & _).
cbn [fst]. unfold sensitivities_of.
destruct (function (dict_values d)) as [nop|e]; [|by eexists].
cbn.
assert (¬ is_Return (entries_of function d nop interval_width
                       differentiation_interval_values d [])) as Hfail.
{ eapply entries_of_some_Raise; [exact Hin|].
  unfold entry_of, resolved. rewrite Hint. cbv [mbind result_bind].
  destruct (evaluated function d parameter (low :: high :: rest) [])
    as [results|e]; [|raised].
  destruct (item results 1) as [results_1|e]; [|raised].
  destruct (item results 0) as [results_0|e]; [|raised].
  change (item (low :: high :: rest) 1) with (Return high).
  change (item (low :: high :: rest) 0) with (Return low).
  cbv beta iota. unfold quotient at 1. rewrite Hwidth. raised. }
destruct (entries_of function d nop interval_width
            differentiation_interval_values d []) as [sens|e];
  [by destruct Hfail | by eexists].
Qed.

(** X5. An operating-point output of zero is fatal as soon as there is a
    parameter: the relative sensitivity divides by it, so the call returns no
    mapping. *)
Theorem X5_zero_output_is_fatal (parameter_values : loc) d
    (interval_width : width_policy num)
    (differentiation_interval_values : option (gmap string (list num)))
    s (normal_operating_point : num) :
  heap s !! parameter_values = Some d →
  d ≠ [] →
  function (dict_values d) = Return normal_operating_point →
  num_eqb normal_operating_point (num_lit 0) = true →
  ∃ e, (get_sensitivities_numerical function parameter_values interval_width
          differentiation_interval_values s).1 = Raise e.
Proof.
intros Hd Hne Hf Hzero.
destruct (get_sensitivities_numerical_run function parameter_values d
            interval_width differentiation_interval_values s Hd)
  as (s' & -> & _).
cbn [fst]. unfold sensitivities_of. rewrite Hf. cbn.
destruct d as [|[p v] d']; [done|].
assert (¬ is_Return (entries_of function ((p, v) :: d') normal_operating_point
                       interval_width differentiation_interval_values
                       ((p, v) :: d') [])) as Hfail.
{ eapply (entries_of_some_Raise _ _ _ _ _ _ p v); [by left|].
  unfold entry_of. cbv [mbind result_bind].
  destruct (resolved _ _ _ _) as [interval|e]; [|raised].
  destruct (evaluated function _ p interval []) as [results|e]; [|raised].
  destruct (item results 1) as [results_1|e]; [|raised].
  destruct (item results 0) as [results_0|e]; [|raised].
  destruct (item interval 1) as [interval_1|e]; [|raised].
  destruct (item interval 0) as [interval_0|e]; [|raised].
  destruct (quotient (results_1 - results_0) (interval_1 - interval_0))
    as [absolute|e]; [|raised].
  unfold quotient. rewrite Hzero. raised. }
destruct (entries_of function _ normal_operating_point interval_width
            differentiation_interval_values _ []) as [sens|e];
  [by destruct Hfail | by eexists].
Qed.

End NumericalFailures.

(** ** A parameter whose value is zero *)

Section ZeroValue.
Import QNum.
Variable function : list Q → result Q.
Local Open Scope Q_scope.

(** X6. Under a relative width a parameter whose operating value is zero
    cannot be analysed: its interval is [[0, 0]], so whenever such a
    parameter has no explicit interval the call returns no mapping. *)
Theorem X6_zero_value_is_fatal (parameter_values : loc) (d : dict Q)
    (interval_width : width_policy Q)
    (differentiation_interval_values : option (gmap string (list Q)))
    (s : state Q) (parameter : string) (normal_value : Q) :
  heap s !! parameter_values = Some d →
  (parameter, normal_value) ∈ d →
  normal_value == 0 →
  Spec.supplied_interval differentiation_interval_values parameter = None →
  ∃ e, (get_sensitivities_numerical function parameter_values interval_width
          differentiation_interval_values s).1 = Raise e.
Proof.
intros Hd Hin Hzero Hsup.
destruct (get_sensitivities_numerical_run function parameter_values d
            interval_width differentiation_interval_values s Hd)
  as (s' & -> & _).
cbn [fst]. unfold sensitivities_of.
destruct (function (dict_values d)) as [nop|e]; [|by eexists].
cbv [mbind result_bind].
assert (¬ is_Return (entries_of function d nop interval_width
                       differentiation_interval_values d [])) as Hfail.
{ eapply entries_of_some_Raise; [exact Hin|].
  unfold entry_of, resolved, Spec.resolve_interval. rewrite Hsup.
  destruct (Spec.resolve_width interval_width parameter) as [w|];
    [|raised].
  cbv [fmap option_fmap option_map Spec.derived_interval mbind result_bind].
  destruct (evaluated function d parameter _ []) as [results|e]; [|raised].
  destruct (item results 1) as [results_1|e]; [|raised].
  destruct (item results 0) as [results_0|e]; [|raised].
  match goal with
  | |- context [item [?low; ?high] 1] =>
      change (item [low; high] 1) with (Return high);
      change (item [low; high] 0) with (Return low)
  end.
  cbv beta iota. unfold quotient at 1.
  match goal with
  | |- context [num_eqb ?a ?b] =>
      assert (num_eqb a b = true) as ->; [|raised]
  end.
  apply Qeq_bool_iff. cbn. rewrite Hzero. ring. }
destruct (entries_of function d nop interval_width
            differentiation_interval_values d []) as [sens|e];
  [by destruct Hfail | by eexists].
Qed.

End ZeroValue.

(** ** The cost of a call and the role of the width policy *)

Section NumericalCost.
Context {num : Type} `{PyNum num}.
Variable function : list num → result num.
Local Open Scope py_scope.

Implicit Types (s : state num) (d items : dict num) (parameter : string).

Lemma length_perturbed_calls d (interval_width : width_policy num)
    (differentiation_interval_values : option (gmap string (list num)))
    items :
  (∀ parameter (normal_value : num), (parameter, normal_value) ∈ items →
     length (default [] (Spec.resolve_interval interval_width
                           differentiation_interval_values parameter
                           normal_value)) = 2%nat) →
  length (perturbed_calls d interval_width differentiation_interval_values
            items) = (2 * length items)%nat.
Proof.
unfold perturbed_calls. induction items as [|[p v] items IH]; intros Hall;
  [done|].
cbn [map concat fst snd]. rewrite length_app, length_map, IH.
- rewrite (Hall p v) by (by left). cbn [length]. lia.
- intros q w Hin. apply Hall. by right.
Qed.

(** X7. A successful call in which every explicit interval has two values
    evaluates the function exactly [2 n + 1] times for [n] parameters. *)
Theorem X7_number_of_evaluations (parameter_values : loc) d
    (interval_width : width_policy num)
    (differentiation_interval_values : option (gmap string (list num)))
    s (sensitivities : dict (sensitivity num)) s' :
  heap s !! parameter_values = Some d →
  (∀ parameter (interval : list num),
     Spec.supplied_interval differentiation_interval_values parameter
     = Some interval → length interval = 2%nat) →
  get_sensitivities_numerical function parameter_values interval_width
    differentiation_interval_values s = (Return sensitivities, s') →
  length (calls s') = (length (calls s) + 1 + 2 * length d)%nat.
Proof.
intros Hd Htwo Hrun.
destruct (get_sensitivities_numerical_run function parameter_values d
            interval_width differentiation_interval_values s Hd)
  as (s1 & Heq & _ & Hcalls).
rewrite Hrun in Heq. injection Heq as Hres <-.
rewrite <- Hres in Hcalls. rewrite (Hcalls I).
rewrite length_app. cbn [length]. rewrite length_perturbed_calls; [lia|].
intros parameter normal_value Hin.
unfold sensitivities_of in Hres.
destruct (function (dict_values d)) as [nop|e]; [|done].
cbv [mbind result_bind] in Hres.
assert (is_Return (entry_of function d nop interval_width
                     differentiation_interval_values parameter normal_value))
  as Hentry.
{ destruct (entry_of function d nop interval_width
              differentiation_interval_values parameter normal_value)
    as [entry|e] eqn:Hentry; [done|].
  exfalso.
  eapply (entries_of_some_Raise function d nop interval_width
            differentiation_interval_values d [] parameter normal_value Hin).
  - rewrite Hentry. raised.
  - by rewrite <- Hres. }
unfold entry_of, resolved in Hentry. unfold Spec.resolve_interval in *.
destruct (Spec.supplied_interval differentiation_interval_values parameter)
  as [interval|] eqn:Hsup.
- cbn. by apply (Htwo parameter).
- destruct (Spec.resolve_width interval_width parameter); [done|].
  by destruct Hentry.
Qed.

Lemma bind_run_ext {A B : Type} (m1 m2 : M num A) (k : A → M num B) s :
  m1 s = m2 s → (x ← m1; k x) s = (x ← m2; k x) s.
Proof. unfold mbind, M_bind, bind. by intros ->. Qed.

Lemma loop_body_explicit (parameter_values : loc) (normal_operating_point : num)
    (interval_width1 interval_width2 : width_policy num)
    (differentiation_interval_values : option (gmap string (list num)))
    (sensitivities : dict (sensitivity num)) parameter (normal_value : num) s :
  is_Some (Spec.supplied_interval differentiation_interval_values parameter) →
  loop_body function parameter_values normal_operating_point interval_width1
    differentiation_interval_values sensitivities parameter normal_value s
  = loop_body function parameter_values normal_operating_point interval_width2
      differentiation_interval_values sensitivities parameter normal_value s.
Proof.
intros [interval Hsup]. unfold loop_body. apply bind_run_ext.
rewrite !differentiation_interval_run.
unfold resolved, Spec.resolve_interval. by rewrite Hsup.
Qed.

Lemma for_parameters_explicit (parameter_values : loc)
    (normal_operating_point : num)
    (interval_width1 interval_width2 : width_policy num)
    (differentiation_interval_values : option (gmap string (list num)))
    items (sensitivities : dict (sensitivity num)) s :
  (∀ parameter (normal_value : num), (parameter, normal_value) ∈ items →
     is_Some (Spec.supplied_interval differentiation_interval_values
                parameter)) →
  for_parameters function parameter_values normal_operating_point
    interval_width1 differentiation_interval_values items sensitivities s
  = for_parameters function parameter_values normal_operating_point
      interval_width2 differentiation_interval_values items sensitivities s.
Proof.
revert sensitivities s.
induction items as [|[p v] items IH]; intros sensitivities s Hall; [done|].
cbn [for_parameters]. unfold mbind, M_bind, bind.
rewrite (loop_body_explicit parameter_values normal_operating_point
           interval_width1 interval_width2) by (apply (Hall p v); by left).
destruct (loop_body _ _ _ interval_width2 _ _ _ _ s) as [[sens|e] s1]; [|done].
apply IH. intros q w Hin. apply (Hall q w). by right.
Qed.

(** X8. When every parameter has an explicit interval that is not empty,
    the width policy plays no role at all: two calls that differ only in
    [interval_width] have the same outcome and leave the same state, even
    when one policy is a mapping without any entry. *)
Theorem X8_explicit_intervals_make_the_width_irrelevant
    (parameter_values : loc) d
    (interval_width1 interval_width2 : width_policy num)
    (differentiation_interval_values : option (gmap string (list num))) s :
  heap s !! parameter_values = Some d →
  (∀ parameter (normal_value : num), (parameter, normal_value) ∈ d →
     is_Some (Spec.supplied_interval differentiation_interval_values
                parameter)) →
  get_sensitivities_numerical function parameter_values interval_width1
    differentiation_interval_values s
  = get_sensitivities_numerical function parameter_values interval_width2
      differentiation_interval_values s.
Proof.
intros Hd Hall.
unfold get_sensitivities_numerical, dict_values_of, dict_items_of.
cbv [mbind M_bind bind mret M_ret ret call]. rewrite Hd.
cbn [heap stdout calls].
destruct (function (dict_values d)) as [nop|e]; [|done].
rewrite Hd. by apply for_parameters_explicit.
Qed.

End NumericalCost.

(** ** What the call prints *)

Section NumericalOutput.
Context {num : Type} `{PyNum num}.
Variable function : list num → result num.
Local Open Scope py_scope.

Implicit Types (s : state num) (d items : dict num) (parameter : string).

(** The body of the loop prints nothing, or the one line of its parameter. *)
Lemma loop_body_stdout (parameter_values : loc) d (normal_operating_point : num)
    (interval_width : width_policy num)
    (differentiation_interval_values : option (gmap string (list num)))
    (sensitivities : dict (sensitivity num)) parameter (normal_value : num)
    s (outcome : result (dict (sensitivity num))) s' :
  heap s !! parameter_values = Some d →
  loop_body function parameter_values normal_operating_point interval_width
    differentiation_interval_values sensitivities parameter normal_value s
  = (outcome, s') →
  heap s' !! parameter_values = Some d
  ∧ (stdout s' = stdout s
     ∨ ∃ low high rest f_low f_high,
         Spec.resolve_interval interval_width differentiation_interval_values
           parameter normal_value = Some (low :: high :: rest)
         ∧ function (perturbed d parameter low) = Return f_low
         ∧ function (perturbed d parameter high) = Return f_high
         ∧ num_eqb (np_round (ratio_of normal_operating_point f_low f_high) 5)
             (num_lit 1) = false
         ∧ stdout s' = stdout s ++
             [not_linear_message parameter
                (ratio_of normal_operating_point f_low f_high)]).
Proof.
intros Hd. unfold loop_body.
unfold mbind at 1, M_bind at 1, bind at 1.
rewrite differentiation_interval_run. unfold resolved.
destruct (Spec.resolve_interval _ _ _ _) as [interval|] eqn:Hint;
  [|intros [= <- <-]; split; [done | by left]].
destruct (evaluate_interval_run function parameter_values d parameter
            interval [] s Hd) as (s1 & Heq & Hf & Hout & _).
pose proof (frame_lookup _ _ _ _ Hf Hd) as Hd1.
unfold mbind at 1, M_bind at 1, bind at 1. rewrite Heq.
destruct (evaluated function d parameter interval []) as [results|e] eqn:Hev;
  [|intros [= <- <-]; split; [done | by left]].
apply evaluated_Return in Hev as (new & -> & Hall). rewrite app_nil_l.
unfold mbind, M_bind, bind. rewrite !list_getitem_run. unfold item.
destruct (new !! 1%nat) as [results_1|] eqn:H1;
  [|intros [= <- <-]; split; [done | by left]].
destruct (new !! 0%nat) as [results_0|] eqn:H0;
  [|intros [= <- <-]; split; [done | by left]].
destruct (interval !! 1%nat) as [interval_1|] eqn:Hi1;
  [|intros [= <- <-]; split; [done | by left]].
destruct (interval !! 0%nat) as [interval_0|] eqn:Hi0;
  [|intros [= <- <-]; split; [done | by left]].
rewrite truediv_run.
destruct (quotient (results_1 - results_0) (interval_1 - interval_0))
  as [absolute|e]; [|intros [= <- <-]; split; [done | by left]].
rewrite truediv_run.
destruct (quotient (absolute * normal_value) normal_operating_point)
  as [relative|e]; [|intros [= <- <-]; split; [done | by left]].
rewrite (linearity_diagnostic_run _ _ _ _ _ _ H0 H1). cbv zeta.
intros [= <- <-]. cbn [heap stdout]. split; [done|].
destruct (num_eqb _ (num_lit 1)) eqn:Hlinear.
- left. by rewrite app_nil_r.
- right.
  destruct Hall as [|low f_low interval' new' Hlow Hall]; [done|].
  destruct Hall as [|high f_high rest new'' Hhigh Hall]; [done|].
  cbn in H0, H1. injection H0 as <-. injection H1 as <-.
  exists low, high, rest, f_low, f_high. by rewrite Hout.
Qed.

(** The lines the loop prints, one at most for each parameter and in their
    order. *)
Lemma for_parameters_stdout (parameter_values : loc) d
    (normal_operating_point : num) (interval_width : width_policy num)
    (differentiation_interval_values : option (gmap string (list num)))
    items (sensitivities : dict (sensitivity num))
    s (outcome : result (dict (sensitivity num))) s' :
  heap s !! parameter_values = Some d →
  for_parameters function parameter_values normal_operating_point
    interval_width differentiation_interval_values items sensitivities s
  = (outcome, s') →
  ∃ lines : list string,
    stdout s' = stdout s ++ lines
    ∧ (length lines ≤ length items)%nat
    ∧ ∀ line, line ∈ lines →
        ∃ parameter (normal_value low high : num) (rest : list num)
          (f_low f_high : num),
          (parameter, normal_value) ∈ items
          ∧ Spec.resolve_interval interval_width
              differentiation_interval_values parameter normal_value
            = Some (low :: high :: rest)
          ∧ function (perturbed d parameter low) = Return f_low
          ∧ function (perturbed d parameter high) = Return f_high
          ∧ num_eqb
              (np_round (ratio_of normal_operating_point f_low f_high) 5)
              (num_lit 1) = false
          ∧ line = not_linear_message parameter
                     (ratio_of normal_operating_point f_low f_high).
Proof.
revert sensitivities s.
induction items as [|[p v] items IH]; intros sensitivities s Hd Hrun.
- injection Hrun as <- <-. exists []. rewrite app_nil_r.
  split_and!; [done | done |]. intros line Hin. by apply elem_of_nil in Hin.
- cbn [for_parameters] in Hrun. unfold mbind, M_bind, bind in Hrun.
  destruct (loop_body function parameter_values normal_operating_point
              interval_width differentiation_interval_values sensitivities
              p v s) as [r1 s1] eqn:Hbody.
  destruct (loop_body_stdout _ _ _ _ _ _ _ _ _ _ _ Hd Hbody) as [Hd1 Hout].
  assert (∃ lines1 : list string,
            stdout s1 = stdout s ++ lines1 ∧ (length lines1 ≤ 1)%nat
            ∧ ∀ line, line ∈ lines1 →
                ∃ (low high : num) (rest : list num) (f_low f_high : num),
                  Spec.resolve_interval interval_width
                    differentiation_interval_values p v
                  = Some (low :: high :: rest)
                  ∧ function (perturbed d p low) = Return f_low
                  ∧ function (perturbed d p high) = Return f_high
                  ∧ num_eqb
                      (np_round (ratio_of normal_operating_point f_low f_high) 5)
                      (num_lit 1) = false
                  ∧ line = not_linear_message p
                             (ratio_of normal_operating_point f_low f_high))
    as (lines1 & Hlines1 & Hlen1 & Hall1).
  { destruct Hout as [Hsame|(low & high & rest & f_low & f_high & Hint & Hlow
                              & Hhigh & Hne & Hline)].
    - exists []. rewrite app_nil_r. split_and!; [done | cbn; lia |].
      intros line Hin. by apply elem_of_nil in Hin.
    - exists [not_linear_message p
                (ratio_of normal_operating_point f_low f_high)].
      split_and!; [done | cbn; lia |].
      intros line Hin. apply list_elem_of_singleton in Hin as ->.
      by exists low, high, rest, f_low, f_high. }
  destruct r1 as [sens1|e].
  + destruct (IH _ _ Hd1 Hrun) as (lines & Hlines & Hlen & Hall).
    exists (lines1 ++ lines). split_and!.
    * by rewrite Hlines, Hlines1, app_assoc.
    * rewrite length_app. cbn [length]. lia.
    * intros line [Hin|Hin]%elem_of_app.
      -- destruct (Hall1 line Hin)
           as (low & high & rest & f_low & f_high & Hline).
         exists p, v, low, high, rest, f_low, f_high.
         split; [by left | done].
      -- destruct (Hall line Hin)
           as (q & w & low & high & rest & f_low & f_high & Hinq & Hline).
         exists q, w, low, high, rest, f_low, f_high.
         split; [by right | done].
  + injection Hrun as <- <-. exists lines1. split_and!.
    * done.
    * cbn [length]. lia.
    * intros line Hin.
      destruct (Hall1 line Hin) as (low & high & rest & f_low & f_high & Hline).
      exists p, v, low, high, rest, f_low, f_high. split; [by left | done].
Qed.

(** X9. Whatever the outcome of the call, the text printed before it is
    kept and at most one line is added for each parameter.  Every line added
    is the diagnostic of a parameter of the input whose ratio, computed from
    the function at the two ends of its interval, does not round to [1]. *)
Theorem X9_printed_lines (parameter_values : loc) d
    (interval_width : width_policy num)
    (differentiation_interval_values : option (gmap string (list num)))
    s (outcome : result (dict (sensitivity num))) s' :
  heap s !! parameter_values = Some d →
  get_sensitivities_numerical function parameter_values interval_width
    differentiation_interval_values s = (outcome, s') →
  ∃ lines : list string,
    stdout s' = stdout s ++ lines
    ∧ (length lines ≤ length d)%nat
    ∧ ∀ line, line ∈ lines →
        ∃ parameter (normal_value normal_operating_point low high : num)
          (rest : list num) (f_low f_high : num),
          (parameter, normal_value) ∈ d
          ∧ function (dict_values d) = Return normal_operating_point
          ∧ Spec.resolve_interval interval_width
              differentiation_interval_values parameter normal_value
            = Some (low :: high :: rest)
          ∧ function (perturbed d parameter low) = Return f_low
          ∧ function (perturbed d parameter high) = Return f_high
          ∧ num_eqb
              (np_round (ratio_of normal_operating_point f_low f_high) 5)
              (num_lit 1) = false
          ∧ line = not_linear_message parameter
                     (ratio_of normal_operating_point f_low f_high).
Proof.
intros Hd.
unfold get_sensitivities_numerical, dict_values_of, dict_items_of.
cbv [mbind M_bind bind mret M_ret ret call]. rewrite Hd.
cbn [heap stdout calls].
destruct (function (dict_values d)) as [nop|e] eqn:Hnop.
- rewrite Hd. intros Hrun.
  destruct (for_parameters_stdout parameter_values d nop interval_width
              differentiation_interval_values d []
              (mkState (heap s) (stdout s) (calls s ++ [dict_values d]))
              outcome s' Hd Hrun)
    as (lines & Hlines & Hlen & Hall).
  exists lines. split_and!; [done | done |].
  intros line Hin.
  destruct (Hall line Hin)
    as (p & v & low & high & rest & f_low & f_high & Hinp & Hline).
  by exists p, v, nop, low, high, rest, f_low, f_high.
- intros [= <- <-]. exists []. cbn [stdout]. rewrite app_nil_r.
  split_and!; [done | cbn; lia |]. intros line Hin. by apply elem_of_nil in Hin.
Qed.

End NumericalOutput.

(** ** A symmetric response is declared linear *)

Section SymmetricResponse.
Import QNum.
Variable function : list Q → result Q.
Local Open Scope Q_scope.

Lemma round_half_even_proper (x y : Q) :
  x == y → round_half_even x = round_half_even y.
Proof.
intros Hxy. unfold round_half_even.
rewrite (Qfloor_comp x y Hxy).
assert (x - inject_Z (Qfloor y) == y - inject_Z (Qfloor y)) as Hsub
  by (rewrite Hxy; reflexivity).
by rewrite (Qcompare_comp _ _ Hsub (1 # 2) (1 # 2) (Qeq_refl _)).
Qed.

Lemma round_proper (x y : Q) (decimals : Z) :
  x == y → round x decimals = round y decimals.
Proof.
intros Hxy. unfold round.
assert (x * scale decimals == y * scale decimals) as Hscaled
  by (rewrite Hxy; reflexivity).
by rewrite (round_half_even_proper _ _ Hscaled).
Qed.

Lemma symmetric_ratio_rounds_to_one (normal_operating_point f_low f_high : Q) :
  normal_operating_point - f_low == f_high - normal_operating_point →
  Qeq_bool (round (ratio_of normal_operating_point f_low f_high) 5) 1 = true.
Proof.
intros Hsym. unfold ratio_of. cbn [num_eqb num_sub num_lit num_div Q_PyNum].
destruct (Qeq_bool (f_high - normal_operating_point) 0) eqn:Hzero.
- reflexivity.
- assert (¬ f_high - normal_operating_point == 0) as Hne.
  { intros Heq. apply Qeq_bool_iff in Heq. congruence. }
  rewrite (round_proper _ 1 5); [reflexivity|].
  rewrite Hsym. by field.
Qed.

(** X10. When the response of the function to every parameter is
    symmetric, [f(operating point) - f(low) == f(high) - f(operating point)],
    as it is for a function that is linear in each parameter, the call prints
    nothing, whether the common difference is zero or not. *)
Theorem X10_symmetric_response_prints_nothing (parameter_values : loc)
    (d : dict Q) (interval_width : width_policy Q)
    (differentiation_interval_values : option (gmap string (list Q)))
    (s : state Q) (outcome : result (dict (sensitivity Q))) (s' : state Q) :
  heap s !! parameter_values = Some d →
  (∀ (parameter : string) (normal_value normal_operating_point low high : Q)
     (rest : list Q) (f_low f_high : Q),
     (parameter, normal_value) ∈ d →
     function (dict_values d) = Return normal_operating_point →
     Spec.resolve_interval interval_width differentiation_interval_values
       parameter normal_value = Some (low :: high :: rest) →
     function (perturbed d parameter low) = Return f_low →
     function (perturbed d parameter high) = Return f_high →
     normal_operating_point - f_low == f_high - normal_operating_point) →
  get_sensitivities_numerical function parameter_values interval_width
    differentiation_interval_values s = (outcome, s') →
  stdout s' = stdout s.
Proof.
intros Hd Hsym.
unfold get_sensitivities_numerical, dict_values_of, dict_items_of.
cbv [mbind M_bind bind mret M_ret ret call]. rewrite Hd.
cbn [heap stdout calls].
destruct (function (dict_values d)) as [nop|e] eqn:Hnop;
  [|by intros [= <- <-]].
rewrite Hd. intros Hrun.
destruct (for_parameters_stdout function parameter_values d nop
            interval_width differentiation_interval_values d []
            (mkState (heap s) (stdout s) (calls s ++ [dict_values d]))
            outcome s' Hd Hrun) as (lines & Hlines & _ & Hall).
destruct lines as [|line lines]; [by rewrite app_nil_r in Hlines|].
destruct (Hall line ltac:(by left))
  as (p & v & low & high & rest & f_low & f_high & Hin & Hint & Hlow & Hhigh
      & Hne & _).
pose proof (symmetric_ratio_rounds_to_one nop f_low f_high
              (Hsym p v nop low high rest f_low f_high Hin eq_refl Hint Hlow
                 Hhigh)) as Hone.
cbn [num_eqb np_round num_lit Q_PyNum] in Hne. congruence.
Qed.

End SymmetricResponse.

(** ** The symbolic engine: results and failures *)

Section SymbolicFacts.
Import Sympy.
Variable function : list expr → result expr.

Implicit Types (parameters all_parameters : list string)
  (parameter_values : gmap string Q) (f : expr).

Lemma get_sensitivity_for_parameter_Return all_parameters parameter_values
    (single_parameter : string) f (value : Q) :
  function (Sym <$> all_parameters) = Return f →
  parameter_values !! single_parameter = Some value →
  get_sensitivity_for_parameter function all_parameters parameter_values
    single_parameter
  = Return
      (let absolute := subs (diff f single_parameter) parameter_values in
       mkSensitivity absolute
         (div (mul absolute (Num (Qred value))) (subs f parameter_values))).
Proof.
intros Hf Hvalue.
unfold get_sensitivity_for_parameter, partially_derivate, value_of.
rewrite Hf. cbv [mbind result_bind mret result_ret]. by rewrite Hvalue.
Qed.

Lemma get_sensitivity_for_parameter_KeyError all_parameters parameter_values
    (single_parameter : string) f :
  function (Sym <$> all_parameters) = Return f →
  parameter_values !! single_parameter = None →
  get_sensitivity_for_parameter function all_parameters parameter_values
    single_parameter = Raise (KeyError single_parameter).
Proof.
intros Hf Hvalue.
unfold get_sensitivity_for_parameter, partially_derivate, value_of.
rewrite Hf. cbv [mbind result_bind mret result_ret]. by rewrite Hvalue.
Qed.

Lemma for_symbols_Return all_parameters parameter_values f parameters
    (sensitivities0 : dict (sensitivity expr)) :
  function (Sym <$> all_parameters) = Return f →
  (∀ parameter, parameter ∈ parameters →
     is_Some (parameter_values !! parameter)) →
  ∃ sensitivities,
    for_symbols function all_parameters parameter_values parameters
      sensitivities0 = Return sensitivities
    ∧ (∀ parameter, parameter ∉ parameters →
         assoc parameter sensitivities = assoc parameter sensitivities0)
    ∧ (NoDup parameters →
       ∀ parameter (value : Q),
         parameter ∈ parameters →
         parameter_values !! parameter = Some value →
         assoc parameter sensitivities
         = Some
             (let absolute := subs (diff f parameter) parameter_values in
              mkSensitivity absolute
                (div (mul absolute (Num (Qred value)))
                   (subs f parameter_values)))).
Proof.
intros Hf. revert sensitivities0.
induction parameters as [|p parameters IH]; intros sensitivities0 Hall.
- exists sensitivities0. split_and!; [done | done |].
  intros _ parameter value Hin. by apply elem_of_nil in Hin.
- destruct (Hall p ltac:(by left)) as [v Hv]. cbn [for_symbols].
  rewrite (get_sensitivity_for_parameter_Return _ _ _ _ _ Hf Hv).
  cbv [mbind result_bind].
  destruct (IH (dict_set sensitivities0 p
                  (let absolute := subs (diff f p) parameter_values in
                   mkSensitivity absolute
                     (div (mul absolute (Num (Qred v)))
                        (subs f parameter_values)))))
    as (sensitivities & Hrun & Hother & Hlookup).
  { intros q Hq. apply Hall. by right. }
  exists sensitivities. split_and!; [done | |].
  + intros q Hq. rewrite Hother.
    * apply assoc_dict_set_ne. intros ->. apply Hq. by left.
    * intros ?. apply Hq. by right.
  + intros Hnd q w Hq Hw. apply NoDup_cons in Hnd as [Hp Hnd].
    apply elem_of_cons in Hq as [->|Hq].
    * rewrite (Hother p Hp), assoc_dict_set_eq.
      by replace w with v by congruence.
    * by apply Hlookup.
Qed.

Lemma for_symbols_first_KeyError all_parameters parameter_values f
    (before after : list string) (parameter : string)
    (sensitivities0 : dict (sensitivity expr)) :
  function (Sym <$> all_parameters) = Return f →
  (∀ q, q ∈ before → is_Some (parameter_values !! q)) →
  parameter_values !! parameter = None →
  for_symbols function all_parameters parameter_values
    (before ++ parameter :: after) sensitivities0
  = Raise (KeyError parameter).
Proof.
intros Hf Hbefore Hnone. revert sensitivities0.
induction before as [|q before IH]; intros sensitivities0.
- cbn [app for_symbols].
  by rewrite (get_sensitivity_for_parameter_KeyError _ _ _ _ Hf Hnone).
- destruct (Hbefore q ltac:(by left)) as [v Hv]. cbn [app for_symbols].
  rewrite (get_sensitivity_for_parameter_Return _ _ _ _ _ Hf Hv).
  cbv [mbind result_bind]. apply IH. intros r Hr. apply Hbefore. by right.
Qed.

(** X11. The two ways in which [get_sensitivities] fails.  An exception of
    the function applied to the symbols leaves the call as it is, as soon as
    there is one parameter.  When the function returns an expression, the
    first parameter that has no value in [parameter_values] makes the call
    raise the [KeyError] of that parameter. *)
Theorem X11_symbolic_failures parameters parameter_values :
  (∀ e : exn,
     parameters ≠ [] →
     function (Sym <$> parameters) = Raise e →
     get_sensitivities function parameters parameter_values = Raise e)
  ∧ (∀ f (before after : list string) (parameter : string),
       parameters = before ++ parameter :: after →
       function (Sym <$> parameters) = Return f →
       (∀ q, q ∈ before → is_Some (parameter_values !! q)) →
       parameter_values !! parameter = None →
       get_sensitivities function parameters parameter_values
       = Raise (KeyError parameter)).
Proof.
split.
- intros e Hne Hf. unfold get_sensitivities.
  destruct parameters as [|p parameters'] eqn:Hp; [done|].
  rewrite <- Hp in Hf |- *. rewrite Hp at 2. cbn [for_symbols].
  unfold get_sensitivity_for_parameter. by rewrite Hf.
- intros f before after parameter Hparameters Hf Hbefore Hnone.
  unfold get_sensitivities. rewrite Hparameters at 2.
  by apply (for_symbols_first_KeyError _ _ f).
Qed.

(** X12. When the function returns the expression [f] on the symbols and
    every parameter has a value, [get_sensitivities] returns; for distinct
    symbols the entry of a parameter [p] of value [v] holds
    [absolute = diff(f, p).subs(values)] and
    [relative = absolute * v / f.subs(values)]. *)
Theorem X12_symbolic_sensitivities parameters parameter_values f :
  function (Sym <$> parameters) = Return f →
  NoDup parameters →
  (∀ parameter, parameter ∈ parameters →
     is_Some (parameter_values !! parameter)) →
  ∃ sensitivities,
    get_sensitivities function parameters parameter_values
    = Return sensitivities
    ∧ ∀ parameter (value : Q),
        parameter ∈ parameters →
        parameter_values !! parameter = Some value →
        assoc parameter sensitivities
        = Some
            (let absolute := subs (diff f parameter) parameter_values in
             mkSensitivity absolute
               (div (mul absolute (Num (Qred value)))
                  (subs f parameter_values))).
Proof.
intros Hf Hnd Hall.
destruct (for_symbols_Return parameters parameter_values f parameters []
            Hf Hall) as (sensitivities & Hrun & _ & Hlookup).
exists sensitivities. split; [done | by apply Hlookup].
Qed.

(** X13. An operating-point output of zero does not make the symbolic
    engine fail, unlike the numerical one: when the derivative at the
    operating point is the number [a], the entry is returned with the
    relative sensitivity [nan] if [a * v] is zero and [zoo] (complex
    infinity) otherwise. *)
Theorem X13_symbolic_zero_output all_parameters parameter_values
    (single_parameter : string) f (value n a : Q) :
  function (Sym <$> all_parameters) = Return f →
  parameter_values !! single_parameter = Some value →
  subs f parameter_values = Num n →
  (n == 0)%Q →
  subs (diff f single_parameter) parameter_values = Num a →
  get_sensitivity_for_parameter function all_parameters parameter_values
    single_parameter
  = Return (mkSensitivity (Num a)
              (if Qeq_bool (a * value) 0 then NaN else ComplexInfinity)).
Proof.
intros Hf Hvalue Hnop Hn Ha.
rewrite (get_sensitivity_for_parameter_Return _ _ _ _ _ Hf Hvalue).
cbv zeta. rewrite Ha, Hnop. do 2 f_equal.
unfold div, pow, NegativeOne.
change (is_zero (-1)) with false. change (is_integer (-1)) with true.
assert (is_zero n = true) as -> by (by apply Qeq_bool_iff).
cbn [andb negb Qle_bool]. change (Qle_bool 0 (-1)) with false.
cbn [negb]. unfold mul, is_zero.
assert (Qeq_bool (Qred (a * Qred value)) 0 = Qeq_bool (a * value) 0) as ->;
  [|done].
apply eq_true_iff_eq. rewrite !Qeq_bool_iff.
by rewrite !Qred_correct.
Qed.

End SymbolicFacts.

(** ** The grid sampler *)

Section ContourFacts.
Context {num : Type} `{PyNum num}.
Variable function : num → num → result num.

Implicit Types (x y v : num) (xs ys vs X Y row : list num)
  (Z rows : list (list num)).

Lemma np_linspace_Return (start stop : num) (n : Z) X :
  np_linspace start stop n = Return X →
  (0 ≤ n)%Z ∧ length X = Z.to_nat n.
Proof.
unfold np_linspace. destruct (n <? 0)%Z eqn:Hn; [done|].
apply Z.ltb_ge in Hn. intros [= <-]. split; [done|].
destruct (1 <? n)%Z; unfold set_last;
  by rewrite ?length_insert, length_fmap, length_seqZ.
Qed.

Lemma row_of_Return x ys vs :
  row_of function x ys = Return vs →
  Forall2 (λ y v, function x y = Return v) ys vs.
Proof.
revert vs. induction ys as [|y ys IH]; intros vs; cbn [row_of].
- intros [= <-]. constructor.
- destruct (function x y) as [v|e] eqn:Hv; [|done].
  cbv [mbind result_bind mret result_ret].
  destruct (row_of function x ys) as [vs'|e]; [|done].
  intros [= <-]. constructor; [done | by apply IH].
Qed.

Lemma row_of_is_Return x ys :
  is_Return (row_of function x ys) ↔ ∀ y, y ∈ ys → is_Return (function x y).
Proof.
induction ys as [|y ys IH]; cbn [row_of].
- split; [|done]. intros _ y Hy. by apply elem_of_nil in Hy.
- destruct (function x y) as [v|e] eqn:Hv;
    cbv [mbind result_bind mret result_ret].
  + destruct (row_of function x ys) as [vs|e].
    * split; [|done]. intros _ y' [->|Hy']%elem_of_cons; [by rewrite Hv|].
      by apply IH.
    * split; [done|]. intros Hall. apply IH. intros y' Hy'. apply Hall.
      by right.
  + split; [done|]. intros Hall. specialize (Hall y ltac:(by left)).
    by rewrite Hv in Hall.
Qed.

Lemma grid_of_Return xs ys rows :
  grid_of function xs ys = Return rows →
  Forall2 (λ x row, Forall2 (λ y v, function x y = Return v) ys row) xs rows.
Proof.
revert rows. induction xs as [|x xs IH]; intros rows; cbn [grid_of].
- intros [= <-]. constructor.
- destruct (row_of function x ys) as [row|e] eqn:Hrow; [|done].
  cbv [mbind result_bind mret result_ret].
  destruct (grid_of function xs ys) as [rows'|e]; [|done].
  intros [= <-]. constructor; [by apply row_of_Return | by apply IH].
Qed.

Lemma grid_of_is_Return xs ys :
  is_Return (grid_of function xs ys)
  ↔ ∀ x y, x ∈ xs → y ∈ ys → is_Return (function x y).
Proof.
induction xs as [|x xs IH]; cbn [grid_of].
- split; [|done]. intros _ x y Hx. by apply elem_of_nil in Hx.
- pose proof (row_of_is_Return x ys) as Hrow.
  destruct (row_of function x ys) as [row|e];
    cbv [mbind result_bind mret result_ret].
  + destruct (grid_of function xs ys) as [rows|e].
    * split; [|done]. intros _ x' y [->|Hx']%elem_of_cons Hy.
      -- by apply Hrow.
      -- by apply IH.
    * split; [done|]. intros Hall. apply IH. intros x' y Hx' Hy.
      apply Hall; [by right | done].
  + split; [done|]. intros Hall. apply Hrow. intros y Hy.
    apply Hall; [by left | done].
Qed.

(** The inner loop overwrites the entries [iy, iy + 1, ...] of the row [ix]. *)
Lemma for_y_run x (ix : nat) ys (iy : nat) Z row :
  Z !! ix = Some row →
  (iy + length ys ≤ length row)%nat →
  for_y function x ix ys iy Z
  = (vs ← row_of function x ys;
     mret (<[ix := take iy row ++ vs ++ drop (iy + length ys) row]> Z)).
Proof.
revert iy Z row. induction ys as [|y ys IH]; intros iy Z row Hrow Hlen.
- cbn [for_y row_of]. cbv [mbind result_bind mret result_ret]. f_equal.
  cbn [length app]. rewrite Nat.add_0_r, take_drop.
  symmetry. by apply list_insert_id.
- cbn [for_y row_of length] in *.
  destruct (function x y) as [v|e]; [|done].
  cbv [mbind result_bind mret result_ret].
  unfold array_setitem. rewrite Hrow.
  destruct (decide (iy < length row)%nat) as [Hiy|Hiy]; [|lia].
  assert (ix < length Z)%nat as Hix
    by (apply lookup_lt_is_Some; by rewrite Hrow).
  rewrite (IH (S iy) _ (<[iy := v]> row)).
  + cbv [mbind result_bind mret result_ret].
    destruct (row_of function x ys) as [vs|e]; [|done]. f_equal.
    rewrite list_insert_insert_eq. f_equal.
    rewrite (take_S_r _ _ v) by (by apply list_lookup_insert_eq).
    rewrite take_insert_ge by lia.
    rewrite drop_insert_lt by lia.
    rewrite <- app_assoc. cbn [app].
    by replace (S iy + length ys)%nat with (iy + S (length ys))%nat by lia.
  + by apply list_lookup_insert_eq.
  + rewrite length_insert. lia.
Qed.

(** The outer loop replaces the rows [ix, ix + 1, ...] by the values of the
    function. *)
Lemma for_x_run xs (ix : nat) Y Z :
  Forall (λ row, length row = length Y) Z →
  (ix + length xs ≤ length Z)%nat →
  for_x function xs ix Y Z
  = (rows ← grid_of function xs Y;
     mret (take ix Z ++ rows ++ drop (ix + length xs) Z)).
Proof.
revert ix Z. induction xs as [|x xs IH]; intros ix Z Hrows Hlen.
- cbn [for_x grid_of length]. cbv [mbind result_bind mret result_ret].
  f_equal. cbn [app]. by rewrite Nat.add_0_r, take_drop.
- cbn [for_x grid_of length] in *.
  destruct (lookup_lt_is_Some_2 Z ix ltac:(lia)) as [row Hrow].
  assert (length row = length Y) as Hrowlen.
  { eapply (proj1 (Forall_forall _ _) Hrows). apply list_elem_of_lookup. eauto. }
  rewrite (for_y_run x ix Y 0 Z row Hrow) by (cbn; lia).
  pose proof (row_of_Return x Y) as Hvs.
  destruct (row_of function x Y) as [vs|e]; [|done].
  specialize (Hvs vs eq_refl). apply Forall2_length in Hvs.
  cbv [mbind result_bind mret result_ret].
  cbn [take app Nat.add]. rewrite <- Hrowlen, drop_all, app_nil_r.
  rewrite IH.
  + cbv [mbind result_bind mret result_ret].
    destruct (grid_of function xs Y) as [rows|e]; [|done]. f_equal.
    rewrite (take_S_r _ _ vs)
      by (apply list_lookup_insert_eq; apply lookup_lt_is_Some; eauto).
    rewrite take_insert_ge by lia.
    rewrite drop_insert_lt by lia.
    rewrite <- app_assoc. cbn [app].
    by replace (S ix + length xs)%nat with (ix + S (length xs))%nat by lia.
  + apply Forall_insert; [done | simpl; congruence].
  + rewrite length_insert. lia.
Qed.

Lemma get_XYZ_run (x_range y_range : list num) (n_steps : Z)
    (x_low x_high y_low y_high : num) X Y :
  x_range !! 0%nat = Some x_low → x_range !! 1%nat = Some x_high →
  y_range !! 0%nat = Some y_low → y_range !! 1%nat = Some y_high →
  np_linspace x_low x_high n_steps = Return X →
  np_linspace y_low y_high n_steps = Return Y →
  get_XYZ function x_range y_range n_steps
  = (rows ← grid_of function X Y; mret (X, Y, rows)).
Proof.
intros Hx0 Hx1 Hy0 Hy1 HX HY.
destruct (np_linspace_Return _ _ _ _ HX) as [Hn HlenX].
destruct (np_linspace_Return _ _ _ _ HY) as [_ HlenY].
unfold get_XYZ, tuple_getitem. rewrite Hx0, Hx1, Hy0, Hy1.
cbv [mbind result_bind mret result_ret]. rewrite HX, HY.
rewrite for_x_run.
- cbv [mbind result_bind mret result_ret].
  destruct (grid_of function X Y) as [rows|e]; [|done].
  do 2 f_equal. cbn [take app Nat.add].
  rewrite drop_ge, app_nil_r; [done|].
  unfold np_zeros. rewrite length_replicate. lia.
- unfold np_zeros. apply Forall_replicate.
  by rewrite length_replicate, HlenY.
- unfold np_zeros. rewrite length_replicate. cbn. lia.
Qed.

(** X14. A grid returned by [get_XYZ] has [n_steps] abscissas, [n_steps]
    ordinates and [n_steps] rows of [n_steps] values; [X] and [Y] are the
    samples of the two ranges, and the value in row [ix] and column [iy] is
    the value the function returns at [(X[ix], Y[iy])]: the first index
    follows [X]. *)
Theorem X14_grid_of_samples (x_range y_range : list num) (n_steps : Z)
    X Y Z :
  get_XYZ function x_range y_range n_steps = Return (X, Y, Z) →
  (∃ x_low x_high y_low y_high,
     x_range !! 0%nat = Some x_low ∧ x_range !! 1%nat = Some x_high
     ∧ y_range !! 0%nat = Some y_low ∧ y_range !! 1%nat = Some y_high
     ∧ np_linspace x_low x_high n_steps = Return X
     ∧ np_linspace y_low y_high n_steps = Return Y)
  ∧ length X = Z.to_nat n_steps
  ∧ length Y = Z.to_nat n_steps
  ∧ length Z = Z.to_nat n_steps
  ∧ (∀ row, row ∈ Z → length row = Z.to_nat n_steps)
  ∧ ∀ (ix iy : nat) x y,
      X !! ix = Some x → Y !! iy = Some y →
      ∃ row v, Z !! ix = Some row ∧ row !! iy = Some v
               ∧ function x y = Return v.
Proof.
intros Hrun.
assert (∃ x_low x_high y_low y_high X' Y',
          x_range !! 0%nat = Some x_low ∧ x_range !! 1%nat = Some x_high
          ∧ y_range !! 0%nat = Some y_low ∧ y_range !! 1%nat = Some y_high
          ∧ np_linspace x_low x_high n_steps = Return X'
          ∧ np_linspace y_low y_high n_steps = Return Y')
  as (x_low & x_high & y_low & y_high & X' & Y' & Hx0 & Hx1 & Hy0 & Hy1
      & HX & HY).
{ unfold get_XYZ, tuple_getitem in Hrun.
  destruct (x_range !! 0%nat) as [x_low|] eqn:Hx0; [|done].
  destruct (x_range !! 1%nat) as [x_high|] eqn:Hx1; [|done].
  cbv [mbind result_bind mret result_ret] in Hrun.
  destruct (np_linspace x_low x_high n_steps) as [X'|e] eqn:HX; [|done].
  destruct (y_range !! 0%nat) as [y_low|] eqn:Hy0; [|done].
  destruct (y_range !! 1%nat) as [y_high|] eqn:Hy1; [|done].
  destruct (np_linspace y_low y_high n_steps) as [Y'|e] eqn:HY; [|done].
  by exists x_low, x_high, y_low, y_high, X', Y'. }
rewrite (get_XYZ_run _ _ _ _ _ _ _ _ _ Hx0 Hx1 Hy0 Hy1 HX HY) in Hrun.
destruct (grid_of function X' Y') as [rows|e] eqn:Hgrid; [|done].
cbv [mbind result_bind mret result_ret] in Hrun. injection Hrun as -> -> ->.
apply grid_of_Return in Hgrid.
destruct (np_linspace_Return _ _ _ _ HX) as [_ HlenX].
destruct (np_linspace_Return _ _ _ _ HY) as [_ HlenY].
split_and!.
- by exists x_low, x_high, y_low, y_high.
- done.
- done.
- by rewrite <- (Forall2_length _ _ _ Hgrid).
- intros row [ix Hrow]%list_elem_of_lookup.
  destruct (Forall2_lookup_r _ _ _ _ _ Hgrid Hrow) as (x & _ & Hvs).
  by rewrite <- (Forall2_length _ _ _ Hvs).
- intros ix iy x y Hx Hy.
  destruct (Forall2_lookup_l _ _ _ _ _ Hgrid Hx) as (row & Hrow & Hvs).
  destruct (Forall2_lookup_l _ _ _ _ _ Hvs Hy) as (v & Hv & Hf).
  by exists row, v.
Qed.

(** X15. With two ranges of two values and a number of steps that is not
    negative, [get_XYZ] returns exactly when the function returns at every
    point of the grid; one point where it raises is enough for no grid to be
    returned. *)
Theorem X15_grid_is_returned (x_range y_range : list num) (n_steps : Z)
    (x_low x_high y_low y_high : num) X Y :
  x_range !! 0%nat = Some x_low → x_range !! 1%nat = Some x_high →
  y_range !! 0%nat = Some y_low → y_range !! 1%nat = Some y_high →
  np_linspace x_low x_high n_steps = Return X →
  np_linspace y_low y_high n_steps = Return Y →
  is_Return (get_XYZ function x_range y_range n_steps)
  ↔ ∀ x y, x ∈ X → y ∈ Y → is_Return (function x y).
Proof.
intros Hx0 Hx1 Hy0 Hy1 HX HY.
rewrite (get_XYZ_run _ _ _ _ _ _ _ _ _ Hx0 Hx1 Hy0 Hy1 HX HY).
rewrite <- grid_of_is_Return.
by destruct (grid_of function X Y).
Qed.

End ContourFacts.

(** ** The properties above on the demo functions *)

Section FurtherExamples.
Import QNum.

Lemma X1_operating_point_failure_propagates_witness :
  get_sensitivities_numerical f2 1%positive default_interval_width None
    (state_with zero_z_parameter_values)
  = (Raise (ZeroDivisionError "division by zero"),
     mkState (heap (state_with zero_z_parameter_values)) []
       [dict_values zero_z_parameter_values]).
Proof.
refine (X1_operating_point_failure_propagates f2 1%positive
          zero_z_parameter_values default_interval_width None
          (state_with zero_z_parameter_values)
          (ZeroDivisionError "division by zero") _ _); reflexivity.
Defined.


Lemma X3_single_value_interval_witness :
  (get_sensitivities_numerical f2 1%positive default_interval_width
     (Some {[ "y" := [2%Q] ]}) demo_state).1
  = Raise (IndexError "list index out of range").
Proof.
refine (X3_single_value_interval f2 1%positive [("x", 1%Q)]
          [("z", 3%Q); ("w", 4%Q)] "y" 2%Q 2%Q (160 # 3)
          default_interval_width {[ "y" := [2%Q] ]} demo_state (160 # 3)
          _ _ _ _ _).
- reflexivity.
- vm_compute. reflexivity.
- intros q w Hin. apply list_elem_of_singleton in Hin. injection Hin as -> ->.
  vm_compute. exact I.
- reflexivity.
- vm_compute. reflexivity.
Defined.

Lemma X4_zero_width_is_fatal_witness :
  ∃ e, (get_sensitivities_numerical f2 1%positive default_interval_width
          (Some {[ "z" := [3%Q; 3%Q] ]}) demo_state).1 = Raise e.
Proof.
refine (X4_zero_width_is_fatal f2 1%positive demo_parameter_values
          default_interval_width (Some {[ "z" := [3%Q; 3%Q] ]}) demo_state
          "z" 3%Q 3%Q 3%Q [] _ _ _ _).
- reflexivity.
- apply list_elem_of_In. vm_compute. tauto.
- reflexivity.
- reflexivity.
Defined.

Lemma X5_zero_output_is_fatal_witness :
  ∃ e, (get_sensitivities_numerical f2 1%positive default_interval_width None
          (state_with zero_w_parameter_values)).1 = Raise e.
Proof.
refine (X5_zero_output_is_fatal f2 1%positive zero_w_parameter_values
          default_interval_width None (state_with zero_w_parameter_values)
          ((1 + 2 + 1 / 3) * (0 * 0))%Q _ _ _ _).
- reflexivity.
- discriminate.
- vm_compute. reflexivity.
- reflexivity.
Defined.

Lemma X6_zero_value_is_fatal_witness :
  ∃ e, (get_sensitivities_numerical f2 1%positive
          (WidthDict {[ "default" := 1 # 10 ]}) None
          (state_with zero_w_parameter_values)).1 = Raise e.
Proof.
refine (X6_zero_value_is_fatal f2 1%positive zero_w_parameter_values
          (WidthDict {[ "default" := 1 # 10 ]}) None
          (state_with zero_w_parameter_values) "w" 0%Q _ _ _ _).
- reflexivity.
- apply list_elem_of_In. vm_compute. tauto.
- reflexivity.
- reflexivity.
Defined.

Lemma X7_number_of_evaluations_witness :
  length (calls (get_sensitivities_numerical f2 1%positive
                   default_interval_width None demo_state).2)
  = (length (calls demo_state) + 1 + 2 * length demo_parameter_values)%nat.
Proof.
pose (run := get_sensitivities_numerical f2 1%positive
               default_interval_width None demo_state).
refine (X7_number_of_evaluations f2 1%positive demo_parameter_values
          default_interval_width None demo_state
          (match run.1 with Return x => x | Raise _ => [] end) run.2 _ _ _).
- reflexivity.
- intros parameter interval Hsup. discriminate Hsup.
- vm_compute. reflexivity.
Defined.

Lemma X8_explicit_intervals_make_the_width_irrelevant_witness :
  get_sensitivities_numerical f2 1%positive (WidthDict ∅)
    (Some explicit_demo_intervals) demo_state
  = get_sensitivities_numerical f2 1%positive default_interval_width
      (Some explicit_demo_intervals) demo_state.
Proof.
refine (X8_explicit_intervals_make_the_width_irrelevant f2 1%positive
          demo_parameter_values (WidthDict ∅) default_interval_width
          (Some explicit_demo_intervals) demo_state _ _).
- reflexivity.
- intros parameter normal_value Hin. apply list_elem_of_In in Hin.
  vm_compute in Hin.
  destruct Hin as [Hin|[Hin|[Hin|[Hin|[]]]]]; injection Hin as <- <-;
    vm_compute; eauto.
Defined.

Lemma X9_printed_lines_witness :
  ∃ lines : list string,
    stdout (get_sensitivities_numerical f2 1%positive default_interval_width
              None demo_state).2 = stdout demo_state ++ lines
    ∧ (length lines ≤ length demo_parameter_values)%nat
    ∧ ∀ line, line ∈ lines →
        ∃ parameter (normal_value normal_operating_point low high : Q)
          (rest : list Q) (f_low f_high : Q),
          (parameter, normal_value) ∈ demo_parameter_values
          ∧ f2 (dict_values demo_parameter_values)
            = Return normal_operating_point
          ∧ Spec.resolve_interval default_interval_width None parameter
              normal_value = Some (low :: high :: rest)
          ∧ f2 (perturbed demo_parameter_values parameter low) = Return f_low
          ∧ f2 (perturbed demo_parameter_values parameter high)
            = Return f_high
          ∧ num_eqb
              (np_round (ratio_of normal_operating_point f_low f_high) 5)
              (num_lit 1) = false
          ∧ line = not_linear_message parameter
                     (ratio_of normal_operating_point f_low f_high).
Proof.
refine (X9_printed_lines f2 1%positive demo_parameter_values
          default_interval_width None demo_state _ _ _ _).
- reflexivity.
- apply surjective_pairing.
Defined.

Lemma X10_symmetric_response_prints_nothing_witness :
  stdout (get_sensitivities_numerical weighted_sum 1%positive
            default_interval_width None (state_with two_parameter_values)).2
  = [].
Proof.
refine (X10_symmetric_response_prints_nothing weighted_sum 1%positive
          two_parameter_values default_interval_width None
          (state_with two_parameter_values) _ _ _ _ _).
- reflexivity.
- intros parameter normal_value normal_operating_point low high rest f_low
    f_high Hin Hnop Hint Hlow Hhigh.
  apply list_elem_of_In in Hin. vm_compute in Hin.
  destruct Hin as [Hin|[Hin|[]]]; injection Hin as <- <-;
    vm_compute in Hint; injection Hint as <- <- <-;
    vm_compute in Hnop, Hlow, Hhigh;
    injection Hnop as <-; injection Hlow as <-; injection Hhigh as <-;
    reflexivity.
- apply surjective_pairing.
Defined.

Lemma X11_symbolic_failures_witness :
  get_sensitivities symbolic_test_function demo_symbols
    symbol_values_without_z = Raise (KeyError "z").
Proof.
refine (proj2 (X11_symbolic_failures symbolic_test_function demo_symbols
                 symbol_values_without_z)
          (Sympy.Mul
             (Sympy.Add (Sympy.Mul (Sympy.Sym "x") (Sympy.Sym "y"))
                (Sympy.Pow (Sympy.Sym "x") (Sympy.Sym "z")))
             (Sympy.Sym "w"))
          ["x"; "y"] ["w"] "z" _ _ _ _).
- reflexivity.
- reflexivity.
- intros q Hq. apply list_elem_of_In in Hq.
  destruct Hq as [<-|[<-|[]]]; vm_compute; eauto.
- reflexivity.
Defined.

Lemma X12_symbolic_sensitivities_witness :
  ∃ sensitivities,
    get_sensitivities symbolic_test_function demo_symbols demo_symbol_values
    = Return sensitivities
    ∧ ∀ parameter (value : Q),
        parameter ∈ demo_symbols →
        demo_symbol_values !! parameter = Some value →
        assoc parameter sensitivities
        = Some
            (let f :=
               Sympy.Mul
                 (Sympy.Add (Sympy.Mul (Sympy.Sym "x") (Sympy.Sym "y"))
                    (Sympy.Pow (Sympy.Sym "x") (Sympy.Sym "z")))
                 (Sympy.Sym "w") in
             let absolute :=
               Sympy.subs (Sympy.diff f parameter) demo_symbol_values in
             mkSensitivity absolute
               (Sympy.div (Sympy.mul absolute (Sympy.Num (Qred value)))
                  (Sympy.subs f demo_symbol_values))).
Proof.
refine (X12_symbolic_sensitivities symbolic_test_function demo_symbols
          demo_symbol_values _ _ _ _).
- reflexivity.
- apply (bool_decide_unpack _). vm_compute. exact I.
- intros parameter Hin. apply list_elem_of_In in Hin.
  destruct Hin as [<-|[<-|[<-|[<-|[]]]]]; vm_compute; eauto.
Defined.

Lemma X13_symbolic_zero_output_witness :
  get_sensitivity_for_parameter symbolic_test_function demo_symbols
    cancelling_symbol_values "y"
  = Return (mkSensitivity (Sympy.Num (-4)) Sympy.ComplexInfinity).
Proof.
refine (X13_symbolic_zero_output symbolic_test_function demo_symbols
          cancelling_symbol_values "y"
          (Sympy.Mul
             (Sympy.Add (Sympy.Mul (Sympy.Sym "x") (Sympy.Sym "y"))
                (Sympy.Pow (Sympy.Sym "x") (Sympy.Sym "z")))
             (Sympy.Sym "w"))
          (-1)%Q 0%Q (-4)%Q _ _ _ _ _).
- reflexivity.
- reflexivity.
- vm_compute. reflexivity.
- reflexivity.
- vm_compute. reflexivity.
Defined.

Lemma X14_grid_of_samples_witness :
  ∃ (X Y : list Q) (Z : list (list Q)),
    get_XYZ wrapped_f2 [1 # 10; 2%Q] [1 # 10; 5%Q] 3 = Return (X, Y, Z)
    ∧ length X = 3%nat ∧ length Y = 3%nat ∧ length Z = 3%nat
    ∧ (∀ row, row ∈ Z → length row = 3%nat)
    ∧ ∀ (ix iy : nat) (x y : Q),
        X !! ix = Some x → Y !! iy = Some y →
        ∃ row v, Z !! ix = Some row ∧ row !! iy = Some v
                 ∧ wrapped_f2 x y = Return v.
Proof.
pose (run := get_XYZ wrapped_f2 [1 # 10; 2%Q] [1 # 10; 5%Q] 3).
exists (match run with Return (X, _, _) => X | Raise _ => [] end),
       (match run with Return (_, Y, _) => Y | Raise _ => [] end),
       (match run with Return (_, _, Z) => Z | Raise _ => [] end).
split; [vm_compute; reflexivity|].
refine (proj2 (X14_grid_of_samples wrapped_f2 [1 # 10; 2%Q] [1 # 10; 5%Q]
                 3 _ _ _ _)).
vm_compute. reflexivity.
Defined.

Lemma X15_grid_is_returned_witness :
  is_Return (get_XYZ wrapped_f2 [1 # 10; 2%Q] [0%Q; 5%Q] 3)
  ↔ ∀ x y : Q,
      x ∈ [(0 * ((2 - (1 # 10)) / inject_Z 2) + (1 # 10))%Q;
           (1 * ((2 - (1 # 10)) / inject_Z 2) + (1 # 10))%Q; 2%Q] →
      y ∈ [(0 * ((5 - 0) / inject_Z 2) + 0)%Q;
           (1 * ((5 - 0) / inject_Z 2) + 0)%Q; 5%Q] →
      is_Return (wrapped_f2 x y).
Proof.
refine (X15_grid_is_returned wrapped_f2 [1 # 10; 2%Q] [0%Q; 5%Q] 3
          (1 # 10) 2%Q 0%Q 5%Q _ _ _ _ _ _ _ _); reflexivity.
Defined.

End FurtherExamples.
